(** * plantnet_backend: the POST /identify relay of src/server.js

    The repository holds several near-identical revisions of one Express
    server.  The development below embeds the revision whose fallback
    chooses among three placeholder records by upload size (the second
    revision in src/server.js, the one with the Flutter accommodation in
    the upload filter).  multer, axios and Express are libraries; they are
    embedded by the part of their documented behaviour the server relies
    on.

    The pipeline of one request is
      multer [upload.single('image')]  ->  async handler  ->  res.json
                       \-> error-handling middleware
    and it is embedded as a function from the uploaded part, the upstream
    credential and the behaviour of the remote service to the HTTP reply
    together with the list of outbound calls that were issued.

    What the upstream sends back is untyped JSON.  The handler reads it
    with property accesses that yield [undefined] for a missing member and
    throw a TypeError on [undefined] or [null]; both are embedded. *)

From Stdlib Require Import String Ascii List NArith ZArith Bool Lia PrimFloat.
From Stdlib Require Import DecimalString.
Import ListNotations.

Set Warnings "-inexact-float,-register-all".
Open Scope string_scope.

(* ================================================================= *)
(** ** JavaScript values used by the server *)

Module Js.

(** A JSON document, as [res.json] emits it and as the upstream body is
    parsed.  Object members keep the order of the object literal they come
    from; a parsed object holds each key once.  [undefined] is no JSON
    value: a JavaScript value that may be [undefined] is an [option Json]. *)
Inductive Json : Type :=
| JNull
| JBool (b : bool)
| JNum (x : float)
| JStr (s : string)
| JArr (elements : list Json)
| JObj (members : list (string * Json)).

(** How [JSON.stringify] writes a value that holds no [undefined]: a
    number that is not finite (a parsed number beyond the range of a double
    is an infinity) is written as [null], a zero of either sign as [0], and
    lists and objects member by member. *)
Fixpoint serialize (j : Json) : Json :=
  match j with
  | JNull => JNull
  | JBool b => JBool b
  | JNum x =>
      if PrimFloat.is_finite x
      then (if PrimFloat.is_zero x then JNum 0 else JNum x)
      else JNull
  | JStr s => JStr s
  | JArr xs => JArr (map serialize xs)
  | JObj ms => JObj (map (fun kv => (fst kv, serialize (snd kv))) ms)
  end.

(** [JSON.stringify] leaves out a member whose value is [undefined]. *)
Fixpoint stringify_members (ms : list (string * option Json))
  : list (string * Json) :=
  match ms with
  | [] => []
  | (k, Some v) :: rest => (k, v) :: stringify_members rest
  | (_, None) :: rest => stringify_members rest
  end.

Definition object (ms : list (string * option Json)) : Json :=
  JObj (stringify_members ms).

Fixpoint lookup (k : string) (ms : list (string * Json)) : option Json :=
  match ms with
  | [] => None
  | (k', v) :: rest => if String.eqb k k' then Some v else lookup k rest
  end.

(** Member [k] of a JSON object, [None] when absent or not an object. *)
Definition field (k : string) (j : Json) : option Json :=
  match j with
  | JObj ms => lookup k ms
  | _ => None
  end.

(** Truthiness of a string: only the empty string is falsy. *)
Definition truthy (s : string) : bool :=
  match s with
  | EmptyString => false
  | String _ _ => true
  end.

(** Truthiness of a value: [undefined], [null], [false], zero, NaN and
    the empty string are falsy; lists and objects are truthy. *)
Definition truthy_value (v : option Json) : bool :=
  match v with
  | None => false
  | Some JNull => false
  | Some (JBool b) => b
  | Some (JNum x) => negb (PrimFloat.is_zero x) && negb (PrimFloat.is_nan x)
  | Some (JStr s) => truthy s
  | Some (JArr _) => true
  | Some (JObj _) => true
  end.

(** Two operations are left to the engine, because they go through
    JavaScript's conversions: [x > 0] for the value [x] of an own [length]
    member of a parsed object ([None] when the conversion throws), and the
    text holding the first UTF-16 code unit of a non-empty text.  The
    handler meets them only when the upstream sends an object or a text
    where a list is expected.  Every property below holds for every
    engine. *)
Class Engine : Type :=
  { gt_zero : Json -> option bool;
    first_unit : string -> string }.

(** [v || d] where [v] is a string or [undefined]. *)
Definition or_else (v : option string) (d : string) : string :=
  match v with
  | Some s => if truthy s then s else d
  | None => d
  end.

(** [String.prototype.toLowerCase] on the ASCII range.  The strings
    are compared against ASCII literals only, and no character outside
    ASCII lowers to a letter of one of those literals. *)
Definition lower_ascii (c : ascii) : ascii :=
  let n := N_of_ascii c in
  if (65 <=? n)%N && (n <=? 90)%N then ascii_of_N (n + 32) else c.

Fixpoint toLowerCase (s : string) : string :=
  match s with
  | EmptyString => EmptyString
  | String c rest => String (lower_ascii c) (toLowerCase rest)
  end.

Definition startsWith (s p : string) : bool := String.prefix p s.

(** [s.split(sep)] for a separator of one character.  The result of
    JavaScript's split is never the empty array. *)
Fixpoint split (sep : ascii) (s : string) : list string :=
  match s with
  | EmptyString => [EmptyString]
  | String c rest =>
      if Ascii.eqb c sep then EmptyString :: split sep rest
      else match split sep rest with
           | seg :: segs => String c seg :: segs
           | [] => [String c EmptyString]
           end
  end.

(** [arr.pop()]: the last element, [undefined] on the empty array. *)
Fixpoint pop (arr : list string) : option string :=
  match arr with
  | [] => None
  | [x] => Some x
  | _ :: rest => pop rest
  end.

(** [arr[i]] *)
Definition index {A : Type} (arr : list A) (i : N) : option A :=
  nth_error arr (N.to_nat i).

End Js.

(* ================================================================= *)
(** ** Express: replies and errors passed to [next] *)

Module Express.
Import Js.

Record Response : Type := mkResponse { status : Z; body : Json }.

(** [res.json(b)] replies with the default status 200 and [b] as
    [JSON.stringify] writes it. *)
Definition json (b : Json) : Response := mkResponse 200 (serialize b).

(** [res.status(c).json(b)] *)
Definition status_json (c : Z) (b : Json) : Response :=
  mkResponse c (serialize b).

(** An error handed to [next(err)]: a [multer.MulterError] with its
    code, or a plain [Error]. *)
Inductive Failure : Type :=
| MulterError (code : string) (message : string)
| Error (message : string).

Definition message_of (e : Failure) : string :=
  match e with
  | MulterError _ msg => msg
  | Error msg => msg
  end.

End Express.

(* ================================================================= *)
(** ** The upload acceptor: [multer] with memory storage *)

Module Multer.
Import Js Express.

(** The file object multer builds for a file part: [originalname] and
    [mimetype] are the part's declared filename and content type, [size]
    the byte length of the buffered payload.  The bytes themselves are
    only forwarded, never inspected, so the buffer is kept by its
    length. *)
Record File : Type :=
  mkFile { originalname : string; mimetype : string; size : N }.

(** What the middleware hands on: the request continues with [req.file]
    set (or left undefined), or an error goes to [next]. *)
Inductive Next : Type :=
| Continue (req_file : option File)
| Raise (e : Failure).

(** [limits.fileSize]: 10 * 1024 * 1024 *)
Definition fileSize : N := 10 * 1024 * 1024.

Definition image_extensions : list string :=
  ["jpg"; "jpeg"; "png"; "gif"; "bmp"; "webp"].

(** [/\.(jpg|jpeg|png|gif|bmp|webp)$/i.test(s)]: at some position there
    is a dot, and what follows up to the end of the input is one of the
    alternatives, letters compared without regard to case. *)
Fixpoint image_extension_test (s : string) : bool :=
  match s with
  | EmptyString => false
  | String c rest =>
      (Ascii.eqb c "." &&
         existsb (fun alt => String.eqb alt (toLowerCase rest))
                 image_extensions)
      || image_extension_test rest
  end.

Definition isImageMime (file : File) : bool :=
  truthy (mimetype file) && startsWith (mimetype file) "image/".

Definition isFlutterImage (file : File) : bool :=
  String.eqb (mimetype file) "application/octet-stream"
  && truthy (originalname file)
  && image_extension_test (originalname file).

(** The [fileFilter] option: [cb(null, true)] is [inr true],
    [cb(new Error(..), false)] is [inl]. *)
Definition fileFilter (file : File) : Failure + bool :=
  if isImageMime file || isFlutterImage file
  then inr true
  else inl (Error "Только изображения разрешены").

(** [upload.single('image')] on a request whose [image] field holds
    [part] (or no file at all).  Multer's order of work for a file part:
    a part without a filename is drained and ignored; the filter is
    asked when the part's headers arrive; an accepted file is then
    buffered, and the stream reports [LIMIT_FILE_SIZE] once the bytes
    it carries reach [limits.fileSize]. *)
Definition single (part : option File) : Next :=
  match part with
  | None => Continue None
  | Some file =>
      if negb (truthy (originalname file)) then Continue None
      else match fileFilter file with
           | inl err => Raise err
           | inr false => Continue None
           | inr true =>
               if (fileSize <=? size file)%N
               then Raise (MulterError "LIMIT_FILE_SIZE" "File too large")
               else Continue (Some file)
           end
  end.

End Multer.

(* ================================================================= *)
(** ** The upstream service and the HTTP client *)

Module Axios.
Import Js Multer.

(** The multipart POST the handler sends. *)
Record Request : Type :=
  mkRequest { target : string;
              authorization : string;
              image_filename : string;
              image_contentType : string;
              image_bytes : N;
              form_fields : list (string * string);
              timeout : Z;
              maxRedirects : Z }.

(** What the remote side does with one request: no answer within the
    timeout, a failure below HTTP, or a reply with a status and the
    value of [response.data]: the parsed body, whatever its shape. *)
Inductive Event : Type :=
| TimedOut
| NetworkFailed
| Replied (code : Z) (data : option Json).

Definition Upstream : Type := Request -> Event.

Inductive AxiosError : Type :=
| ECONNABORTED
| ENetwork
| EStatus (code : Z).

Record AxiosResponse : Type :=
  mkAxiosResponse { response_status : Z; response_data : option Json }.

(** The default [validateStatus]: the promise resolves for 2xx only. *)
Definition validateStatus (code : Z) : bool :=
  ((200 <=? code) && (code <? 300))%Z.

Definition settle (ev : Event) : AxiosError + AxiosResponse :=
  match ev with
  | TimedOut => inl ECONNABORTED
  | NetworkFailed => inl ENetwork
  | Replied code data =>
      if validateStatus code then inr (mkAxiosResponse code data)
      else inl (EStatus code)
  end.

End Axios.

(* ================================================================= *)
(** ** Asynchronous handler code: outbound calls and exceptions *)

Module Async.
Import Axios.

(** What a [throw] or a rejected promise carries. *)
Inductive Thrown : Type :=
| Rejected (e : AxiosError)
| TypeError (what : string).

(** A computation runs against the remote side, records the calls it
    makes in order, and ends with a value or with something thrown. *)
Definition M (A : Type) : Type := Upstream -> list Request * (Thrown + A).

Definition ret {A} (a : A) : M A := fun _ => ([], inr a).

Definition throw {A} (e : Thrown) : M A := fun _ => ([], inl e).

Definition bind {A B} (c : M A) (k : A -> M B) : M B :=
  fun up =>
    match c up with
    | (sent, inl e) => (sent, inl e)
    | (sent, inr a) =>
        let (sent', r) := k a up in ((sent ++ sent')%list, r)
    end.

(** [try { c } catch (error) { h error }] *)
Definition try_catch {A} (c : M A) (h : Thrown -> M A) : M A :=
  fun up =>
    match c up with
    | (sent, inl e) =>
        let (sent', r) := h e up in ((sent ++ sent')%list, r)
    | (sent, inr a) => (sent, inr a)
    end.

(** [await axios.post(..)]: one call goes out; the promise resolves or
    rejects as [Axios.settle] says. *)
Definition post (rq : Request) : M AxiosResponse :=
  fun up =>
    match settle (up rq) with
    | inl e => ([rq], inl (Rejected e))
    | inr resp => ([rq], inr resp)
    end.

(** Code that makes no call: it ends with a value or throws. *)
Definition Try (A : Type) : Type := (Thrown + A)%type.

Definition value {A} (a : A) : Try A := inr a.

Definition raise {A} (e : Thrown) : Try A := inl e.

Definition and_then {A B} (c : Try A) (k : A -> Try B) : Try B :=
  match c with
  | inl e => inl e
  | inr a => k a
  end.

Definition lift {A} (c : Try A) : M A := fun _ => ([], c).

Module Notations.
Notation "x <- c ;; k" := (bind c (fun x => k))
  (at level 61, c at next level, right associativity).
Notation "x <~ c ;; k" := (and_then c (fun x => k))
  (at level 61, c at next level, right associativity).
End Notations.

End Async.

(* ================================================================= *)
(** ** Reading untyped values *)

Module Dynamic.
Import Js Async.

(** [v.k] for a member name [k] other than [length] and the indices:
    a TypeError on [undefined] and [null], the member (or [undefined]) of
    an object, [undefined] on texts, lists, numbers and booleans. *)
Definition member (k : string) (v : option Json) : Try (option Json) :=
  match v with
  | None => raise (TypeError "Cannot read properties of undefined")
  | Some JNull => raise (TypeError "Cannot read properties of null")
  | Some (JObj ms) => value (lookup k ms)
  | Some (JBool _) => value None
  | Some (JNum _) => value None
  | Some (JStr _) => value None
  | Some (JArr _) => value None
  end.

(** [v.length > 0]: the list or the text is not empty; for an object
    its own [length] member decides ([undefined > 0] is false); numbers
    and booleans have no [length]. *)
Definition length_gt0 {engine : Engine} (v : option Json) : Try bool :=
  match v with
  | None => raise (TypeError "Cannot read properties of undefined")
  | Some JNull => raise (TypeError "Cannot read properties of null")
  | Some (JArr xs) => value match xs with [] => false | _ :: _ => true end
  | Some (JStr s) => value (truthy s)
  | Some (JObj ms) =>
      match lookup "length" ms with
      | None => value false
      | Some len =>
          match gt_zero len with
          | Some b => value b
          | None => raise (TypeError "Cannot convert object to primitive value")
          end
      end
  | Some (JBool _) => value false
  | Some (JNum _) => value false
  end.

(** [v[0]] *)
Definition first {engine : Engine} (v : option Json) : Try (option Json) :=
  match v with
  | None => raise (TypeError "Cannot read properties of undefined")
  | Some JNull => raise (TypeError "Cannot read properties of null")
  | Some (JArr xs) => value (hd_error xs)
  | Some (JStr s) =>
      value (if truthy s then Some (JStr (first_unit s)) else None)
  | Some (JObj ms) => value (lookup "0" ms)
  | Some (JBool _) => value None
  | Some (JNum _) => value None
  end.

End Dynamic.

(* ================================================================= *)
(** ** The server *)

Module Server.
Import Js Express Multer Axios Async Async.Notations Dynamic.

Definition PLANTNET_API_URL : string :=
  "https://my-api.plantnet.org/v2/identify".

(** [{ success: false, error: msg }] *)
Definition failure_body (msg : string) : Json :=
  JObj [("success", JBool false); ("error", JStr msg)].

Definition mockPlants : list Json :=
  [ JObj [("name", JStr "Жасыл жапырақ");
          ("scientific_name", JStr "Ficus elastica");
          ("description", JStr "Бұл өсімдік үйде өсіруге өте қолайлы. Ол ауаны тазартады және оттегі береді.");
          ("benefits", JStr "Өсімдік ауаны тазартады, оттегі береді және үйдегі ауа сапасын жақсартады. Стресс азайтады.");
          ("warnings", JStr "Балалардың қолынан аулақ ұстаңыз. Кейбір адамдарда аллергия тудыруы мүмкін.");
          ("confidence", JNum 0.92);
          ("image_url", JStr "")];
    JObj [("name", JStr "Гүлді өсімдік");
          ("scientific_name", JStr "Rosa canina");
          ("description", JStr "Бұл гүлді өсімдік әдемі гүлдерімен танымал. Ол бақшада өте жақсы көрінеді.");
          ("benefits", JStr "Гүлдері әдемі, ауаны тазартады. Бақшада өте жақсы көрінеді және табиғатты сүйеміз.");
          ("warnings", JStr "Тікендері бар, абайлаңыз. Кейбір адамдарда аллергия тудыруы мүмкін.");
          ("confidence", JNum 0.88);
          ("image_url", JStr "")];
    JObj [("name", JStr "Деректеме өсімдік");
          ("scientific_name", JStr "Monstera deliciosa");
          ("description", JStr "Бұл өсімдік үлкен жапырақтарымен танымал. Ол үйде өте жақсы көрінеді.");
          ("benefits", JStr "Ауаны тазартады, оттегі береді. Үйдегі ауа сапасын жақсартады және әдемі көрінеді.");
          ("warnings", JStr "Балалардың қолынан аулақ ұстаңыз. Жапырақтары улы болуы мүмкін.");
          ("confidence", JNum 0.85);
          ("image_url", JStr "")] ].

Definition mock_note : string :=
  "Демонстрациялық деректер (PlantNet API қатаң талаптары)".

(** The reply both fallback branches build:
    [mockIndex = fileSize % mockPlants.length],
    [res.json({ success: true, result: mockPlants[mockIndex], note })]. *)
Definition mock_reply (fileSize : N) : Response :=
  let mockIndex := (fileSize mod N.of_nat (List.length mockPlants))%N in
  let mockPlantInfo := index mockPlants mockIndex in
  json (object [("success", Some (JBool true));
                ("result", mockPlantInfo);
                ("note", Some (JStr mock_note))]).

(** The [switch (ext)] that repairs the content type of Flutter uploads. *)
Definition contentType_of_ext (ext : string) : string :=
  if String.eqb ext "jpg" || String.eqb ext "jpeg" then "image/jpeg"
  else if String.eqb ext "png" then "image/png"
  else if String.eqb ext "gif" then "image/gif"
  else if String.eqb ext "bmp" then "image/bmp"
  else if String.eqb ext "webp" then "image/webp"
  else "image/jpeg".

(** [let contentType = req.file.mimetype; if (... === 'application/octet-stream') {..}] *)
Definition contentType_of (file : File) : M string :=
  if String.eqb (mimetype file) "application/octet-stream" then
    match pop (split "." (originalname file)) with
    | Some last => ret (contentType_of_ext (toLowerCase last))
    | None => throw (TypeError "Cannot read properties of undefined (reading 'toLowerCase')")
    end
  else ret (mimetype file).

(** The form data and request options of the outbound call. *)
Definition outbound (key : string) (file : File) (contentType : string)
  : Request :=
  {| target := PLANTNET_API_URL;
     authorization := "Bearer " ++ key;
     image_filename :=
       if truthy (originalname file) then originalname file
       else "plant_image.jpg";
     image_contentType := contentType;
     image_bytes := size file;
     form_fields :=
       [("organs", "auto");
        ("modifiers", "crops-simple,similar_images,plant_net,plant_net_detailed");
        ("no-reject", "true");
        ("plant-details", "common_names,url,description,image")];
     timeout := 30000;
     maxRedirects := 5 |}.

(** [const species = result.species] and the object literal
    [plantInfo], for [result] the first of the results.  The members are
    evaluated in the order written; the first TypeError ends the
    evaluation.  A member whose value is [undefined] is left out when the
    reply is serialised. *)
Definition plantInfo {engine : Engine} (result : option Json) : Try Json :=
  species <~ member "species" result ;;
  commonNames <~ member "commonNames" species ;;
  named <~ (if truthy_value commonNames then length_gt0 commonNames
            else value false) ;;
  name <~ (if named then first commonNames
           else member "scientificNameWithoutAuthor" species) ;;
  scientific_name <~ member "scientificNameWithoutAuthor" species ;;
  description <~ member "description" species ;;
  confidence <~ member "score" result ;;
  images <~ member "images" result ;;
  pictured <~ (if truthy_value images then length_gt0 images
               else value false) ;;
  image_url <~ (if pictured
                then image <~ first images ;;
                     url <~ member "url" image ;;
                     member "m" url
                else value (Some (JStr ""))) ;;
  value (object
           [("name", name);
            ("scientific_name", scientific_name);
            ("description",
              if truthy_value description then description
              else Some (JStr "Описание недоступно"));
            ("benefits", Some (JStr "Информация о пользе растения. Рекомендуется проконсультироваться с врачом перед использованием."));
            ("warnings", Some (JStr "Будьте осторожны при использовании растений. Убедитесь в правильности определения вида."));
            ("confidence", confidence);
            ("image_url", image_url)]).

(** [response.data && response.data.results
     && response.data.results.length > 0] *)
Definition has_results {engine : Engine} (data : option Json) : Try bool :=
  if truthy_value data then
    results <~ member "results" data ;;
    if truthy_value results then length_gt0 results else value false
  else value false.

(** The branch for a payload with results: [results[0]], [plantInfo],
    [res.json({ success: true, result: plantInfo })]. *)
Definition identified {engine : Engine} (data : option Json)
  : Try Response :=
  results <~ member "results" data ;;
  result <~ first results ;;
  info <~ plantInfo result ;;
  value (json (JObj [("success", JBool true); ("result", info)])).

Section Handler.

Context {engine : Engine}.

(** [process.env.PLANTNET_API_KEY], read once at start-up. *)
Variable PLANTNET_API_KEY : option string.

(** [!PLANTNET_API_KEY] is false exactly for a non-empty string. *)
Definition api_key : option string :=
  match PLANTNET_API_KEY with
  | Some key => if truthy key then Some key else None
  | None => None
  end.

(** The body of the [try] block of the /identify handler. *)
Definition identify_try (req_file : option File) : M Response :=
  match req_file with
  | None => ret (status_json 400 (failure_body "Изображение не найдено"))
  | Some file =>
      match api_key with
      | None =>
          ret (status_json 500 (failure_body "PlantNet API ключ не настроен"))
      | Some key =>
          contentType <- contentType_of file ;;
          response <- post (outbound key file contentType) ;;
          found <- lift (has_results (response_data response)) ;;
          if found then lift (identified (response_data response))
          else ret (mock_reply (size file))
      end
  end.

(** The [catch (error)] block: it reads [req.file.size] and answers
    with placeholder data whatever was thrown. *)
Definition identify_catch (req_file : option File) (error : Thrown)
  : M Response :=
  match req_file with
  | None => throw (TypeError "Cannot read properties of undefined (reading 'size')")
  | Some file => ret (mock_reply (size file))
  end.

Definition identify_handler (req_file : option File) : M Response :=
  try_catch (identify_try req_file) (identify_catch req_file).

(** The error-handling middleware registered after the routes. *)
Definition error_middleware (error : Failure) : Response :=
  let generic :=
    status_json 500
      (failure_body (or_else (Some (message_of error))
                             "Внутренняя ошибка сервера")) in
  match error with
  | MulterError code _ =>
      if String.eqb code "LIMIT_FILE_SIZE"
      then status_json 400
             (failure_body "Файл слишком большой. Максимальный размер: 10MB")
      else generic
  | Error _ => generic
  end.

(** [app.post('/identify', upload.single('image'), handler)] followed by
    the error middleware. *)
Definition post_identify (part : option File) : M Response :=
  match single part with
  | Continue req_file => identify_handler req_file
  | Raise error => ret (error_middleware error)
  end.

End Handler.

(** Observations on a finished request. *)
Definition calls {A} (o : list Request * (Thrown + A)) : list Request :=
  fst o.

Definition reply {A} (o : list Request * (Thrown + A)) : option A :=
  match snd o with
  | inr r => Some r
  | inl _ => None
  end.

End Server.

(* ================================================================= *)
(** ** Vocabulary of the specification *)

Module Spec.
Import Js Express Multer Axios Async Server.

(** The filename ends in a dot followed by one of the known image
    extensions, in any mix of upper and lower case. *)
Definition EndsInImageExtension (name : string) : Prop :=
  exists stem ext,
    name = stem ++ "." ++ ext /\ In (toLowerCase ext) image_extensions.

(** No character of [s] is the separator. *)
Fixpoint free_of (sep : ascii) (s : string) : bool :=
  match s with
  | EmptyString => true
  | String c rest => negb (Ascii.eqb c sep) && free_of sep rest
  end.

(** The allowed-image predicate of the upload acceptor: an image media
    type, or the generic binary type together with an image extension. *)
Definition AllowedType (file : File) : Prop :=
  startsWith (mimetype file) "image/" = true
  \/ (mimetype file = "application/octet-stream"
      /\ EndsInImageExtension (originalname file)).

(** The upstream credential is absent: unset, or set to nothing. *)
Definition CredentialAbsent (key : option string) : Prop :=
  key = None \/ key = Some "".

(** The reply body carries no ranked match: it is empty or no object,
    it has no [results] member or a falsy one, or its [results] are the
    empty list. *)
Inductive NoRankedMatch : option Json -> Prop :=
| no_body data : truthy_value data = false -> NoRankedMatch data
| not_an_object data :
    (forall ms, data <> Some (JObj ms)) -> NoRankedMatch data
| no_results ms :
    truthy_value (lookup "results" ms) = false ->
    NoRankedMatch (Some (JObj ms))
| empty_results ms :
    lookup "results" ms = Some (JArr []) -> NoRankedMatch (Some (JObj ms)).

(** The upstream call timed out, failed below HTTP, came back with a
    status outside 2xx, or came back without a single ranked match. *)
Inductive Unusable : Event -> Prop :=
| unusable_timeout : Unusable TimedOut
| unusable_network : Unusable NetworkFailed
| unusable_status code data :
    (code < 200 \/ 300 <= code)%Z -> Unusable (Replied code data)
| unusable_empty code data :
    NoRankedMatch data -> Unusable (Replied code data).

(** The upstream call came back 2xx with an object whose [results] are
    a list that begins with [first], its best match. *)
Definition BestMatch (ev : Event) (first : Json) : Prop :=
  exists code ms rest,
    ev = Replied code (Some (JObj ms)) /\ (200 <= code < 300)%Z
    /\ lookup "results" ms = Some (JArr (first :: rest)).

(** A member that is not there, is [null], or is a list. *)
Definition ListOrAbsent (v : option Json) : Prop :=
  v = None \/ v = Some JNull \/ exists xs, v = Some (JArr xs).

(** The images of a match are missing, or a list that is empty or whose
    first entry is an object with a [url] object. *)
Definition ImagesShaped (v : option Json) : Prop :=
  v = None \/ v = Some JNull \/ v = Some (JArr [])
  \/ exists image rest url,
      v = Some (JArr (JObj image :: rest))
      /\ lookup "url" image = Some (JObj url).

(** A well-shaped match: an object with a [species] object, whose
    [commonNames] are missing or a list and whose [images] are shaped as
    above. *)
Definition WellShaped (first : Json) : Prop :=
  exists ms species,
    first = JObj ms
    /\ lookup "species" ms = Some (JObj species)
    /\ ListOrAbsent (lookup "commonNames" species)
    /\ ImagesShaped (lookup "images" ms).

(** A complete match: well-shaped, with a score, a scientific name and,
    when it lists images, a medium-size URL for the first. *)
Definition Complete (first : Json) : Prop :=
  exists ms species,
    first = JObj ms
    /\ lookup "species" ms = Some (JObj species)
    /\ lookup "score" ms <> None
    /\ lookup "scientificNameWithoutAuthor" species <> None
    /\ ListOrAbsent (lookup "commonNames" species)
    /\ (lookup "images" ms = None \/ lookup "images" ms = Some JNull
        \/ lookup "images" ms = Some (JArr [])
        \/ exists image rest url,
            lookup "images" ms = Some (JArr (JObj image :: rest))
            /\ lookup "url" image = Some (JObj url)
            /\ lookup "m" url <> None).

(** The species of a match. *)
Definition species_of (first : Json) : option Json := field "species" first.

(** Member [k] of the species of a match. *)
Definition species_member (k : string) (first : Json) : option Json :=
  match field "species" first with
  | Some species => field k species
  | None => None
  end.

(** What the handler answers once the call has settled, the [try] block
    and the [catch] block taken together: [mock] unless the payload has
    results and the record is built without a throw. *)
Definition settled_reply {engine : Engine} (mock : Response)
           (outcome : AxiosError + AxiosResponse) : Response :=
  match outcome with
  | inl _ => mock
  | inr response =>
      match has_results (response_data response) with
      | inr true =>
          match identified (response_data response) with
          | inr r => r
          | inl _ => mock
          end
      | inr false => mock
      | inl _ => mock
      end
  end.

(** The seven members of an identification result. *)
Definition result_members : list string :=
  ["name"; "scientific_name"; "description"; "benefits"; "warnings";
   "confidence"; "image_url"].

Definition WellFormedResult (j : Json) : Prop :=
  forall k, In k result_members -> field k j <> None.

(** The request fails a local check: the upload acceptor raises an
    error, no file reaches the handler, or the credential is absent. *)
Definition LocalFailure (key : option string) (part : option File) : Prop :=
  match single part with
  | Raise _ => True
  | Continue None => True
  | Continue (Some _) => CredentialAbsent key
  end.

(** The media type an image extension stands for: [image/<ext>], with
    [jpg] another spelling of [jpeg]. *)
Definition media_type_of_extension (ext : string) : string :=
  "image/" ++ (if String.eqb ext "jpg" then "jpeg" else ext).

(** Member [k] of the [result] record of a reply. *)
Definition result_member (k : string) (r : Response) : option Json :=
  match field "result" (body r) with
  | Some result => field k result
  | None => None
  end.

Definition description_unavailable : string := "Описание недоступно".

Definition missing_file_reply : Response :=
  {| status := 400;
     body := JObj [("success", JBool false);
                   ("error", JStr "Изображение не найдено")] |}.

Definition missing_credential_reply : Response :=
  {| status := 500;
     body := JObj [("success", JBool false);
                   ("error", JStr "PlantNet API ключ не настроен")] |}.

End Spec.

(* ================================================================= *)
(** ** Sample requests and upstream behaviours *)

Module Samples.
Import Js Express Multer Axios Async Server.

Definition leaf : File := mkFile "leaf.png" "image/png" 204800.
Definition flutter_photo : File :=
  mkFile "IMG_0042.JPG" "application/octet-stream" 350001.
Definition notes_pdf : File := mkFile "notes.pdf" "application/pdf" 2048.
Definition huge_pdf : File :=
  mkFile "scan.pdf" "application/pdf" (11 * 1024 * 1024).
Definition huge_png : File :=
  mkFile "poster.png" "image/png" (11 * 1024 * 1024).

(** The remote service never answers in time. *)
Definition down : Upstream := fun _ => TimedOut.

(** An engine for running the samples.  It is exact where a [length]
    member is a number, a boolean or [null] and where a text begins with
    an ASCII character; the samples hold lists only and never reach it. *)
#[global] Instance sample_engine : Engine :=
  {| gt_zero len :=
       match len with
       | JNum x => Some (PrimFloat.ltb 0 x)
       | JBool b => Some b
       | JNull => Some false
       | JStr _ => Some false
       | JArr _ => Some false
       | JObj _ => Some false
       end;
     first_unit s := substring 0 1 s |}.

(** The remote service answers 200 with the given matches. *)
Definition answers (ms : list Json) : Upstream :=
  fun _ => Replied 200 (Some (JObj [("results", JArr ms)])).

Definition dog_rose : Json :=
  JObj [("score", JNum 0.8731);
        ("species",
          JObj [("scientificNameWithoutAuthor", JStr "Rosa canina");
                ("commonNames", JArr [JStr "Dog rose"; JStr "Wild briar"]);
                ("description", JStr "A climbing wild rose.")]);
        ("images",
          JArr [JObj [("url",
                        JObj [("m", JStr "https://bs.plantnet.org/image/m/1a2b")])]])].

(** A match whose description is there but empty. *)
Definition blank_description : Json :=
  JObj [("score", JNum 0.4102);
        ("species",
          JObj [("scientificNameWithoutAuthor", JStr "Ficus carica");
                ("description", JStr "")])].

Definition leaf_call : Request := outbound "secret" leaf "image/png".

End Samples.

(* ================================================================= *)
(** ** The diagnostic endpoints *)

Module Diagnostics.
Import Js Express Axios.

(** The object GET /test-api answers with. *)
Record KeyReport : Type :=
  mkKeyReport { hasApiKey : bool; apiKeyLength : nat; apiKeyPrefix : string }.

(** The GET request of /test-plantnet and what can come of it: no
    response at all (the error then only has a message), or a response
    with status, status text and body. *)
Record Probe : Type :=
  mkProbe { probe_target : string;
            probe_authorization : string;
            probe_contentType : string;
            probe_timeout : Z }.

Inductive ProbeEvent : Type :=
| Unanswered (message : string)
| Answered (code : Z) (statusText : string) (data : Json).

(** [error.response]: status, statusText and data. *)
Record ErrorResponse : Type :=
  mkErrorResponse { error_status : Z; error_statusText : string;
                    error_data : Json }.

Record ProbeError : Type :=
  mkProbeError { error_message : string;
                 error_response : option ErrorResponse }.

(** [await axios.get(..)]: resolved for 2xx; otherwise rejected with
    axios' message for the status and the response attached. *)
Definition get (ev : ProbeEvent) : ProbeError + (Z * Json) :=
  match ev with
  | Unanswered message => inl (mkProbeError message None)
  | Answered code statusText data =>
      if validateStatus code then inr (code, data)
      else inl (mkProbeError
                  ("Request failed with status code "
                   ++ NilZero.string_of_int (Z.to_int code))
                  (Some (mkErrorResponse code statusText data)))
  end.

(** The two bodies of /test-plantnet:
    [{ success: true, message, status, data }] and
    [{ success: false, error, details }], [details] being [null] without
    a response. *)
Inductive ProbeBody : Type :=
| ProbeOk (message : string) (status : Z) (data : Json)
| ProbeFailed (error : string) (details : option ErrorResponse).

Record ProbeReply : Type :=
  mkProbeReply { probe_status : Z; probe_body : ProbeBody }.

Section Endpoints.

Variable PLANTNET_API_KEY : option string.

(** [!!PLANTNET_API_KEY] *)
Definition configured : bool :=
  match PLANTNET_API_KEY with
  | Some key => truthy key
  | None => false
  end.

(** GET /health; [timestamp] is what [new Date().toISOString()] gives
    when the request is served. *)
Definition health (timestamp : string) : Response :=
  json (JObj [("status", JStr "OK");
              ("message", JStr "Сервер работает");
              ("timestamp", JStr timestamp);
              ("hasApiKey", JBool configured)]).

(** GET /test-api.  The key is text of one-byte characters, so that
    [length] and [substring] count as JavaScript does. *)
Definition test_api : KeyReport :=
  {| hasApiKey := configured;
     apiKeyLength :=
       match PLANTNET_API_KEY with
       | Some key => if truthy key then String.length key else 0
       | None => 0
       end;
     apiKeyPrefix :=
       match PLANTNET_API_KEY with
       | Some key =>
           if truthy key then substring 0 8 key ++ "..." else "Нет ключа"
       | None => "Нет ключа"
       end |}.

(** The template literal [`Bearer ${PLANTNET_API_KEY}`]: an undefined
    key is spelled out as the word undefined. *)
Definition bearer : string :=
  "Bearer " ++ match PLANTNET_API_KEY with
               | Some key => key
               | None => "undefined"
               end.

Definition projects_probe : Probe :=
  {| probe_target := "https://my-api.plantnet.org/v2/projects";
     probe_authorization := bearer;
     probe_contentType := "application/json";
     probe_timeout := 10000 |}.

(** GET /test-plantnet: the probes sent and the reply. *)
Definition test_plantnet (up : Probe -> ProbeEvent)
  : list Probe * ProbeReply :=
  ([projects_probe],
   match get (up projects_probe) with
   | inr (status, data) =>
       mkProbeReply 200 (ProbeOk "PlantNet API доступен" status data)
   | inl error =>
       mkProbeReply 500
         (ProbeFailed (error_message error) (error_response error))
   end).

End Endpoints.

End Diagnostics.

(* ================================================================= *)
(** ** The single-placeholder revision

    The third revision in src/server.js: the filter admits image media
    types only, the declared content type is forwarded as it is, and both
    fallback branches answer with one fixed record.  Its test for
    results, its branch for a payload with results (with [plantInfo]) and
    its error middleware read the same as the ones embedded above. *)

Module Earlier.
Import Js Express Multer Axios Async Async.Notations.

Definition fileFilter (file : File) : Failure + bool :=
  if truthy (mimetype file) && startsWith (mimetype file) "image/"
  then inr true
  else inl (Error "Только изображения разрешены").

(** [multer({ limits: { fileSize }, fileFilter }).single('image')] for a
    given filter, in multer's order of work. *)
Definition upload_single (filter : File -> Failure + bool)
           (part : option File) : Next :=
  match part with
  | None => Continue None
  | Some file =>
      if negb (truthy (originalname file)) then Continue None
      else match filter file with
           | inl err => Raise err
           | inr false => Continue None
           | inr true =>
               if (fileSize <=? size file)%N
               then Raise (MulterError "LIMIT_FILE_SIZE" "File too large")
               else Continue (Some file)
           end
  end.

Definition mockPlantInfo : Json :=
  JObj [("name", JStr "Жасыл өсімдік");
        ("scientific_name", JStr "Plantus Greenus");
        ("description", JStr "Бұл өсімдік табиғатта кең таралған. Ол ауаны тазартады және оттегі береді.");
        ("benefits", JStr "Өсімдік ауаны тазартады, оттегі береді және табиғатты сүйеміз. Ол үйдегі ауа сапасын жақсартады.");
        ("warnings", JStr "Кейбір өсімдіктер аллергия тудыруы мүмкін. Балалардың қолынан аулақ ұстаңыз.");
        ("confidence", JNum 0.85);
        ("image_url", JStr "")].

Definition mock_reply : Response :=
  json (JObj [("success", JBool true);
              ("result", mockPlantInfo);
              ("note", JStr "Демонстрациялық деректер (PlantNet API қол жетімді емес)")]).

Definition outbound (key : string) (file : File) : Request :=
  {| target := Server.PLANTNET_API_URL;
     authorization := "Bearer " ++ key;
     image_filename :=
       if truthy (originalname file) then originalname file
       else "plant_image.jpg";
     image_contentType := mimetype file;
     image_bytes := size file;
     form_fields :=
       [("organs", "auto");
        ("modifiers", "crops-simple,similar_images,plant_net,plant_net_detailed")];
     timeout := 30000;
     maxRedirects := 5 |}.

Section Handler.

Context {engine : Engine}.

Variable PLANTNET_API_KEY : option string.

Definition identify_try (req_file : option File) : M Response :=
  match req_file with
  | None => ret (status_json 400 (Server.failure_body "Изображение не найдено"))
  | Some file =>
      match Server.api_key PLANTNET_API_KEY with
      | None =>
          ret (status_json 500
                 (Server.failure_body "PlantNet API ключ не настроен"))
      | Some key =>
          response <- post (outbound key file) ;;
          found <- lift (Server.has_results (response_data response)) ;;
          if found then lift (Server.identified (response_data response))
          else ret mock_reply
      end
  end.

(** The [catch] block of this revision does not look at the request. *)
Definition identify_catch (error : Thrown) : M Response := ret mock_reply.

Definition identify_handler (req_file : option File) : M Response :=
  try_catch (identify_try req_file) identify_catch.

Definition post_identify (part : option File) : M Response :=
  match upload_single fileFilter part with
  | Continue req_file => identify_handler req_file
  | Raise error => ret (Server.error_middleware error)
  end.

End Handler.

End Earlier.

(* ================================================================= *)
(** ** More sample requests *)

Module MoreSamples.
Import Js Express Multer Axios Async Server.

Definition double_extension : File :=
  mkFile "photo.png.exe" "application/octet-stream" 4096.
Definition leaf_twin : File := mkFile "twig.jpg" "image/jpeg" 204803.
Definition leaf_next : File := mkFile "bark.jpg" "image/jpeg" 204801.
Definition twin_call : Request := outbound "secret" leaf_twin "image/jpeg".
Definition next_call : Request := outbound "secret" leaf_next "image/jpeg".
Definition flutter_call : Request :=
  outbound "secret" Samples.flutter_photo "image/jpeg".

(** A ranked match whose first image has no [url]. *)
Definition image_without_url : Json :=
  JObj [("score", JNum 0.91);
        ("species",
          JObj [("scientificNameWithoutAuthor", JStr "Rosa canina")]);
        ("images", JArr [JObj []])].

(** A ranked match without a [score]. *)
Definition unscored : Json :=
  JObj [("species",
          JObj [("scientificNameWithoutAuthor", JStr "Rosa canina");
                ("commonNames", JArr [JStr "Dog rose"])])].

(** Upstream of the probe: unreachable, and answering 401. *)
Definition unreachable : Diagnostics.Probe -> Diagnostics.ProbeEvent :=
  fun _ => Diagnostics.Unanswered "getaddrinfo ENOTFOUND my-api.plantnet.org".
Definition unauthorized : Diagnostics.Probe -> Diagnostics.ProbeEvent :=
  fun _ => Diagnostics.Answered 401 "Unauthorized" (JObj [("error", JStr "Unauthorized")]).

End MoreSamples.

(* ================================================================= *)
(** ** Properties *)

Import Js Express Multer Axios Async Dynamic Server Spec Samples MoreSamples.

(** *** Strings *)

Lemma split_not_nil (sep : ascii) (s : string) : split sep s <> [].
Proof.
  destruct s as [|c rest]; simpl; [discriminate|].
  destruct (Ascii.eqb c sep); [discriminate|].
  destruct (split sep rest); discriminate.
Qed.

Lemma pop_cons_not_nil (x : string) (xs : list string) :
  xs <> [] -> pop (x :: xs) = pop xs.
Proof. destruct xs; [congruence | reflexivity]. Qed.

(** Splitting a string that holds the separator yields at least two
    segments. *)
Lemma split_with_sep_tail (sep : ascii) (stem rest : string) :
  exists seg seg' segs, split sep (stem ++ String sep rest) = seg :: seg' :: segs.
Proof.
  induction stem as [|c stem IH]; simpl.
  - rewrite Ascii.eqb_refl.
    destruct (split sep rest) as [|y ys] eqn:E.
    + now apply split_not_nil in E.
    + now exists "", y, ys.
  - destruct IH as (seg & seg' & segs & ->).
    destruct (Ascii.eqb c sep); eauto.
Qed.

(** [pop] after [split] sees only what follows the last separator. *)
Lemma pop_split_app (sep : ascii) (stem rest : string) :
  pop (split sep (stem ++ String sep rest)) = pop (split sep rest).
Proof.
  induction stem as [|c stem IH]; simpl.
  - rewrite Ascii.eqb_refl.
    apply pop_cons_not_nil, split_not_nil.
  - destruct (split_with_sep_tail sep stem rest) as (seg & seg' & segs & E).
    rewrite E in *.
    destruct (Ascii.eqb c sep); exact IH.
Qed.

Lemma split_free (sep : ascii) (s : string) :
  free_of sep s = true -> split sep s = [s].
Proof.
  induction s as [|c s IH]; simpl; [reflexivity|].
  intros [Hc Hs]%andb_prop.
  apply negb_true_iff in Hc. rewrite Hc, (IH Hs). reflexivity.
Qed.

Lemma lower_ascii_dot (c : ascii) :
  Ascii.eqb (lower_ascii c) "." = Ascii.eqb c ".".
Proof.
  destruct c as [[] [] [] [] [] [] [] []]; reflexivity.
Qed.

Lemma free_of_dot_lower (s : string) :
  free_of "." (toLowerCase s) = free_of "." s.
Proof.
  induction s as [|c s IH]; simpl; [reflexivity|].
  now rewrite lower_ascii_dot, IH.
Qed.

Lemma image_extension_free_of_dot (ext : string) :
  In (toLowerCase ext) image_extensions -> free_of "." ext = true.
Proof.
  intros H. rewrite <- free_of_dot_lower.
  unfold image_extensions in H. simpl in H.
  repeat (destruct H as [<- | H]; [reflexivity|]).
  contradiction.
Qed.

(** The segment the handler lowers and switches on is the extension. *)
Lemma pop_split_extension (stem ext : string) :
  In (toLowerCase ext) image_extensions ->
  pop (split "." (stem ++ "." ++ ext)) = Some ext.
Proof.
  intros H. change (stem ++ "." ++ ext) with (stem ++ String "." ext).
  rewrite pop_split_app, split_free; [reflexivity|].
  now apply image_extension_free_of_dot.
Qed.

Lemma image_extension_test_cons (c : ascii) (rest : string) :
  image_extension_test (String c rest)
  = (Ascii.eqb c "."
     && existsb (fun alt => String.eqb alt (toLowerCase rest)) image_extensions)
    || image_extension_test rest.
Proof. reflexivity. Qed.

(** The regular expression of the filter accepts exactly the names that
    end in an image extension. *)
Lemma image_extension_test_spec (name : string) :
  image_extension_test name = true <-> EndsInImageExtension name.
Proof.
  unfold EndsInImageExtension. split.
  - induction name as [|c name IH]; [discriminate|].
    rewrite image_extension_test_cons.
    intros [H | H]%orb_prop.
    + apply andb_prop in H as [Hc Hx].
      apply Ascii.eqb_eq in Hc. subst c.
      apply existsb_exists in Hx as (alt & Hin & Heq).
      apply String.eqb_eq in Heq.
      exists "", name. split; [reflexivity|]. now rewrite <- Heq.
    + destruct (IH H) as (stem & ext & -> & Hin).
      exists (String c stem), ext. now split.
  - intros (stem & ext & -> & Hin).
    change (stem ++ "." ++ ext) with (stem ++ String "." ext).
    induction stem as [|c stem IH].
    + change ("" ++ String "." ext) with (String "." ext).
      rewrite image_extension_test_cons.
      apply orb_true_iff. left. rewrite Ascii.eqb_refl.
      apply existsb_exists. exists (toLowerCase ext).
      split; [assumption | apply String.eqb_refl].
    + change (String c stem ++ String "." ext)
        with (String c (stem ++ String "." ext)).
      rewrite image_extension_test_cons, IH. apply orb_true_r.
Qed.

(** *** The upload acceptor *)

Lemma fileFilter_allowed (file : File) :
  fileFilter file = inr true <-> AllowedType file.
Proof.
  unfold fileFilter, AllowedType, isImageMime, isFlutterImage, startsWith.
  split.
  - destruct (truthy (mimetype file) && prefix "image/" (mimetype file)) eqn:Hi.
    + apply andb_prop in Hi as [_ Hp]. now left.
    + simpl.
      destruct (String.eqb (mimetype file) "application/octet-stream") eqn:Ho;
        [|discriminate].
      destruct (truthy (originalname file)); [|discriminate].
      destruct (image_extension_test (originalname file)) eqn:Ht;
        [|discriminate].
      intros _. right. split.
      * now apply String.eqb_eq.
      * now apply image_extension_test_spec.
  - intros [Hp | [Ho Hx]].
    + rewrite Hp.
      destruct (mimetype file); [discriminate | reflexivity].
    + apply image_extension_test_spec in Hx.
      rewrite Ho, Hx.
      destruct (originalname file); [discriminate | reflexivity].
Qed.

Lemma fileFilter_rejected (file : File) :
  ~ AllowedType file ->
  fileFilter file = inl (Error "Только изображения разрешены").
Proof.
  intros H. destruct (fileFilter file) as [e | b] eqn:E.
  - unfold fileFilter in E.
    destruct (isImageMime file || isFlutterImage file); congruence.
  - exfalso. apply H, fileFilter_allowed.
    unfold fileFilter in *.
    destruct (isImageMime file || isFlutterImage file); congruence.
Qed.

(** The acceptor either hands the part over unchanged, hands over no
    file, or raises. *)
Lemma single_cases (file : File) :
  single (Some file) = Continue (Some file)
  \/ single (Some file) = Continue None
  \/ exists e, single (Some file) = Raise e.
Proof.
  unfold single.
  destruct (negb (truthy (originalname file))); [now right; left|].
  destruct (fileFilter file) as [e | []] eqn:E.
  - right; right; eauto.
  - destruct (fileSize <=? size file)%N; [right; right; eauto | now left].
  - now right; left.
Qed.

(** *** The handler *)

Lemma contentType_of_returns (file : File) (up : Upstream) :
  exists ct, contentType_of file up = ([], inr ct).
Proof.
  unfold contentType_of.
  destruct (String.eqb (mimetype file) "application/octet-stream").
  - destruct (pop (split "." (originalname file))) as [last|] eqn:E.
    + eexists; reflexivity.
    + exfalso. generalize (split_not_nil "." (originalname file)).
      induction (split "." (originalname file)) as [|x [|y ys] IH];
        [congruence | discriminate |].
      intros _. apply IH; [exact E | discriminate].
  - eexists; reflexivity.
Qed.

(** With a file and a credential the handler sends exactly one request
    and answers from what comes back: whatever is thrown after the call
    ends in the catch block, which answers with the placeholder. *)
Lemma identify_handler_run {engine : Engine} (key : option string)
      (k : string) (file : File) (up : Upstream) :
  api_key key = Some k ->
  exists ct,
    contentType_of file up = ([], inr ct)
    /\ identify_handler key (Some file) up
       = ([outbound k file ct],
          inr (settled_reply (mock_reply (size file))
                             (settle (up (outbound k file ct))))).
Proof.
  intros Hk. destruct (contentType_of_returns file up) as [ct Hct].
  exists ct. split; [exact Hct|].
  unfold identify_handler, try_catch, identify_try, bind, post, lift.
  rewrite Hk, Hct. unfold settled_reply.
  destruct (settle (up (outbound k file ct))) as [e | resp]; [reflexivity|].
  destruct (has_results (response_data resp)) as [e | []];
    [reflexivity | | reflexivity].
  destruct (identified (response_data resp)) as [e | r]; reflexivity.
Qed.

Lemma api_key_absent (key : option string) :
  api_key key = None <-> CredentialAbsent key.
Proof.
  unfold api_key, CredentialAbsent.
  destruct key as [[|c s]|]; simpl; split; intros H;
    auto; try discriminate; destruct H; discriminate.
Qed.

(** Whatever the upload and the credential, a request for which a call
    went out passed the acceptor unchanged, had a credential, sent that one
    call, and was answered from its outcome. *)
Lemma post_identify_called {engine : Engine} (key : option string)
      (part : option File) (up : Upstream) (call : Request) :
  In call (calls (post_identify key part up)) ->
  exists file k ct,
    part = Some file
    /\ single part = Continue (Some file)
    /\ api_key key = Some k
    /\ contentType_of file up = ([], inr ct)
    /\ call = outbound k file ct
    /\ post_identify key part up
       = ([call],
          inr (settled_reply (mock_reply (size file)) (settle (up call)))).
Proof.
  unfold post_identify.
  destruct part as [file|]; [|simpl; contradiction].
  destruct (single_cases file) as [E | [E | [e E]]]; rewrite E;
    [| simpl; contradiction | simpl; contradiction].
  destruct (api_key key) as [k|] eqn:Hk.
  - destruct (identify_handler_run key k file up Hk) as (ct & Hct & Hrun).
    rewrite Hrun. simpl.
    intros [<- | []]. now exists file, k, ct.
  - unfold identify_handler, try_catch, identify_try. rewrite Hk.
    simpl. contradiction.
Qed.

(** The fallback reply spelled out: status 200, [success: true], the
    record at index [n mod 3], and the note. *)
Lemma mock_reply_record (n : N) :
  exists record,
    index mockPlants (n mod 3)%N = Some record
    /\ mock_reply n
       = {| status := 200;
            body := JObj [("success", JBool true);
                          ("result", record);
                          ("note", JStr mock_note)] |}.
Proof.
  unfold mock_reply.
  change (N.of_nat (List.length mockPlants)) with 3%N.
  assert (Hlt : (n mod 3 < 3)%N) by (apply N.mod_upper_bound; discriminate).
  destruct (n mod 3)%N as [|[[]|[]|]];
    try (exfalso; lia); eexists; split; reflexivity.
Qed.

(** A body without a ranked match fails the handler's test for results. *)
Lemma no_ranked_match_no_results {engine : Engine} (data : option Json) :
  NoRankedMatch data -> has_results data = inr false.
Proof.
  unfold has_results.
  intros [d Hd | d Hd | ms Hr | ms Hr].
  - now rewrite Hd.
  - destruct d as [[| b | x | s | xs | ms]|];
      try reflexivity;
      try (destruct (truthy_value _); reflexivity).
    exfalso. now apply (Hd ms).
  - simpl. now rewrite Hr.
  - simpl. now rewrite Hr.
Qed.

Lemma unusable_settle {engine : Engine} (mock : Response) (ev : Event) :
  Unusable ev -> settled_reply mock (settle ev) = mock.
Proof.
  intros [| | code data Hc | code data Hr]; simpl; trivial;
    destruct (validateStatus code) eqn:V; trivial.
  - unfold validateStatus in V. apply andb_prop in V as [V1 V2].
    apply Z.leb_le in V1. apply Z.ltb_lt in V2. lia.
  - unfold settled_reply. simpl.
    now rewrite (no_ranked_match_no_results data Hr).
Qed.

(** On the fallback path the reply is the placeholder reply for the
    upload's byte length. *)
Lemma fallback_reply {engine : Engine} (key : option string) (file : File)
      (up : Upstream) (call : Request) :
  In call (calls (post_identify key (Some file) up)) ->
  Unusable (up call) ->
  reply (post_identify key (Some file) up) = Some (mock_reply (size file)).
Proof.
  intros Hin Hu.
  destruct (post_identify_called _ _ _ _ Hin)
    as (file' & k & ct & [= <-] & _ & _ & _ & _ & ->).
  unfold reply. simpl. now rewrite (unusable_settle _ _ Hu).
Qed.

(** *** Claims *)

(** C1. For a request with a file, when the upstream call times out,
    fails on the network or with a status outside 2xx, or brings no ranked
    match, the reply is 200 with [success: true], a [note], and the
    placeholder record at index (byte length mod 3) of the three-record
    set; two uploads of equal byte length on this path get the same
    record. *)
Theorem fallback_serves_placeholder {engine : Engine} (key : option string) (file : File)
        (up : Upstream) (call : Request) :
  In call (calls (post_identify key (Some file) up)) ->
  Unusable (up call) ->
  List.length mockPlants = 3%nat
  /\ (exists record,
        index mockPlants (size file mod 3)%N = Some record
        /\ reply (post_identify key (Some file) up)
           = Some {| status := 200;
                     body := JObj [("success", JBool true);
                                   ("result", record);
                                   ("note", JStr mock_note)] |})
  /\ (forall key' file' up' call',
        In call' (calls (post_identify key' (Some file') up')) ->
        Unusable (up' call') ->
        size file' = size file ->
        reply (post_identify key' (Some file') up')
        = reply (post_identify key (Some file) up)).
Proof.
  intros Hin Hu. split; [reflexivity|]. split.
  - destruct (mock_reply_record (size file)) as (record & Hrec & Hm).
    exists record. split; [exact Hrec|].
    now rewrite (fallback_reply _ _ _ _ Hin Hu), Hm.
  - intros key' file' up' call' Hin' Hu' Hsize.
    rewrite (fallback_reply _ _ _ _ Hin Hu), (fallback_reply _ _ _ _ Hin' Hu').
    now rewrite Hsize.
Qed.

Lemma fallback_serves_placeholder_witness :
  In leaf_call (calls (post_identify (Some "secret") (Some leaf) down))
  /\ Unusable (down leaf_call)
  /\ List.length mockPlants = 3%nat
  /\ (exists record,
        index mockPlants (size leaf mod 3)%N = Some record
        /\ reply (post_identify (Some "secret") (Some leaf) down)
           = Some {| status := 200;
                     body := JObj [("success", JBool true);
                                   ("result", record);
                                   ("note", JStr mock_note)] |})
  /\ (forall key' file' up' call',
        In call' (calls (post_identify key' (Some file') up')) ->
        Unusable (up' call') ->
        size file' = size leaf ->
        reply (post_identify key' (Some file') up')
        = reply (post_identify (Some "secret") (Some leaf) down)).
Proof.
  assert (Hin : In leaf_call
                   (calls (post_identify (Some "secret") (Some leaf) down)))
    by (left; reflexivity).
  assert (Hu : Unusable (down leaf_call)) by constructor.
  split; [exact Hin|]. split; [exact Hu|].
  exact (fallback_serves_placeholder (Some "secret") leaf down leaf_call Hin Hu).
Defined.

(** C3. For a request whose file reaches the handler, when the upstream
    credential is absent the reply is 500 with [success: false], and no
    call goes out. *)
Theorem absent_credential_is_500 {engine : Engine} (key : option string)
        (part : option File) (file : File) (up : Upstream) :
  single part = Continue (Some file) ->
  CredentialAbsent key ->
  (exists b,
      reply (post_identify key part up) = Some {| status := 500; body := b |}
      /\ field "success" b = Some (JBool false))
  /\ calls (post_identify key part up) = [].
Proof.
  intros Hs Hk. apply api_key_absent in Hk.
  unfold post_identify, identify_handler, try_catch, identify_try.
  rewrite Hs, Hk. simpl. split; [|reflexivity].
  eexists. split; reflexivity.
Qed.

Lemma absent_credential_is_500_witness :
  single (Some leaf) = Continue (Some leaf)
  /\ CredentialAbsent None
  /\ (exists b,
        reply (post_identify None (Some leaf) (answers [dog_rose]))
        = Some {| status := 500; body := b |}
        /\ field "success" b = Some (JBool false))
  /\ calls (post_identify None (Some leaf) (answers [dog_rose])) = [].
Proof.
  assert (Hs : single (Some leaf) = Continue (Some leaf)) by reflexivity.
  assert (Hk : CredentialAbsent None) by (left; reflexivity).
  split; [exact Hs|]. split; [exact Hk|].
  exact (absent_credential_is_500 None (Some leaf) leaf (answers [dog_rose])
           Hs Hk).
Defined.

(** C6. A request without a file part is answered 400 with
    [success: false], and no call goes out. *)
Theorem missing_file_is_400 {engine : Engine} (key : option string) (up : Upstream) :
  (exists b,
      reply (post_identify key None up) = Some {| status := 400; body := b |}
      /\ field "success" b = Some (JBool false))
  /\ calls (post_identify key None up) = [].
Proof.
  split; [|reflexivity]. eexists. split; reflexivity.
Qed.

(** C10. Without a file part the reply is the missing-file 400 whether
    or not the credential is configured: the file check comes first, so a
    request lacking both file and credential is never answered with the
    missing-credential 500. *)
Theorem missing_file_checked_before_credential {engine : Engine} (up : Upstream) :
  (forall key, reply (post_identify key None up) = Some missing_file_reply)
  /\ reply (post_identify None None up) = Some missing_file_reply
  /\ reply (post_identify (Some "") None up) = Some missing_file_reply
  /\ status missing_file_reply = 400%Z
  /\ reply (post_identify None None up) <> Some missing_credential_reply.
Proof.
  repeat split; discriminate.
Qed.

(** *** The record built from the first match *)

Lemma lookup_serialize (k : string) (ms : list (string * Json)) :
  lookup k (map (fun kv => (fst kv, serialize (snd kv))) ms)
  = option_map serialize (lookup k ms).
Proof.
  induction ms as [|[k' v] ms IH]; [reflexivity|].
  cbn [map lookup fst snd]. destruct (String.eqb k k'); [reflexivity | exact IH].
Qed.

(** Writing a value keeps its members, each written in turn. *)
Lemma field_serialize (k : string) (j : Json) :
  field k (serialize j) = option_map serialize (field k j).
Proof.
  destruct j as [| b | x | s | xs | ms]; try reflexivity.
  - cbn [serialize]. destruct (PrimFloat.is_finite x); [|reflexivity].
    destruct (PrimFloat.is_zero x); reflexivity.
  - apply lookup_serialize.
Qed.

Lemma well_formed_serialize (j : Json) :
  WellFormedResult j -> WellFormedResult (serialize j).
Proof.
  intros H k Hk. rewrite field_serialize.
  specialize (H k Hk). destruct (field k j); [discriminate | congruence].
Qed.

Lemma plantInfo_object_members
      (name scientific_name confidence image_url : option Json)
      (description benefits warnings : Json) :
  let info :=
    object [("name", name);
            ("scientific_name", scientific_name);
            ("description", Some description);
            ("benefits", Some benefits);
            ("warnings", Some warnings);
            ("confidence", confidence);
            ("image_url", image_url)] in
  field "name" info = name
  /\ field "scientific_name" info = scientific_name
  /\ field "description" info = Some description
  /\ field "benefits" info = Some benefits
  /\ field "warnings" info = Some warnings
  /\ field "confidence" info = confidence
  /\ field "image_url" info = image_url.
Proof.
  destruct name, scientific_name, confidence, image_url;
    repeat split; reflexivity.
Qed.

Lemma described (v : option Json) (unavailable : string) :
  exists d,
    (if truthy_value v then v else Some (JStr unavailable)) = Some d.
Proof.
  destruct v as [d|]; [|now eexists].
  destruct (truthy_value (Some d)); now eexists.
Qed.

(** Whenever the record is built, it has a description and the two
    advisory texts. *)
Lemma plantInfo_built {engine : Engine} (result : option Json) (info : Json) :
  plantInfo result = inr info ->
  field "description" info <> None
  /\ field "benefits" info <> None
  /\ field "warnings" info <> None.
Proof.
  unfold plantInfo.
  repeat match goal with
         | |- and_then ?c _ = inr _ -> _ =>
             destruct c as [?e | ?a]; cbn [and_then]; [discriminate|]
         end.
  unfold value. intros [= <-].
  match goal with
  | |- context [if truthy_value ?v then _ else Some (JStr ?u)] =>
      destruct (described v u) as [d ->]
  end.
  match goal with
  | |- context [object ?ms] =>
      match ms with
      | [(_, ?n); (_, ?s); (_, Some ?d); (_, Some ?b); (_, Some ?w);
         (_, ?c); (_, ?i)] =>
          destruct (plantInfo_object_members n s c i d b w)
            as (_ & _ & -> & -> & -> & _)
      end
  end.
  repeat split; discriminate.
Qed.

(** The record built from a well-shaped match, member by member. *)
Lemma plantInfo_well_shaped {engine : Engine} (first : Json) :
  WellShaped first ->
  exists ms species info,
    first = JObj ms
    /\ lookup "species" ms = Some (JObj species)
    /\ plantInfo (Some first) = inr info
    /\ field "name" info
       = match lookup "commonNames" species with
         | Some (JArr (common :: _)) => Some common
         | _ => lookup "scientificNameWithoutAuthor" species
         end
    /\ field "scientific_name" info
       = lookup "scientificNameWithoutAuthor" species
    /\ field "description" info
       = (if truthy_value (lookup "description" species)
          then lookup "description" species
          else Some (JStr "Описание недоступно"))
    /\ field "confidence" info = lookup "score" ms
    /\ field "image_url" info
       = match lookup "images" ms with
         | Some (JArr (image :: _)) =>
             match field "url" image with
             | Some url => field "m" url
             | None => None
             end
         | _ => Some (JStr "")
         end.
Proof.
  intros (ms & species & -> & Hsp & Hcn & Himg).
  exists ms, species.
  unfold plantInfo. cbn [member value and_then]. rewrite Hsp.
  cbn [member value and_then].
  destruct (described (lookup "description" species) "Описание недоступно")
    as [d Hd].
  destruct Hcn as [Hcn | [Hcn | [[|common names] Hcn]]];
    rewrite Hcn; cbn [truthy_value length_gt0 first hd_error value and_then];
    (destruct Himg as [Hi | [Hi | [Hi | (image & rest & url & Hi & Hu)]]];
     rewrite Hi;
     cbn [truthy_value length_gt0 first hd_error member value and_then field];
     try rewrite Hu; cbn [member value and_then field];
     eexists; (split; [reflexivity|]); (split; [reflexivity|]);
     (split; [reflexivity|]);
     rewrite Hd;
     match goal with
     | |- context [object ?l] =>
         match l with
         | [(_, ?n); (_, ?s); (_, Some ?d0); (_, Some ?b); (_, Some ?w);
            (_, ?c); (_, ?i)] =>
             destruct (plantInfo_object_members n s c i d0 b w)
               as (-> & -> & -> & _ & _ & -> & ->)
         end
     end;
     repeat split; reflexivity).
Qed.

(** When the call comes back 2xx with a list of results, the reply is
    the record built from the first of them, or the placeholder when
    building it throws. *)
Lemma best_match_reply {engine : Engine} (key : option string) (file : File)
      (up : Upstream) (call : Request) (first : Json) :
  In call (calls (post_identify key (Some file) up)) ->
  BestMatch (up call) first ->
  reply (post_identify key (Some file) up)
  = Some match plantInfo (Some first) with
         | inr info => json (JObj [("success", JBool true); ("result", info)])
         | inl _ => mock_reply (size file)
         end.
Proof.
  intros Hin (code & ms & rest & Hev & Hcode & Hresults).
  destruct (post_identify_called _ _ _ _ Hin)
    as (file' & k & ct & [= <-] & _ & _ & _ & _ & ->).
  rewrite Hev. unfold reply, settle, validateStatus.
  replace (200 <=? code)%Z with true by (symmetry; apply Z.leb_le; lia).
  replace (code <? 300)%Z with true by (symmetry; apply Z.ltb_lt; lia).
  cbn [andb snd settled_reply response_data].
  unfold has_results, identified.
  cbn [truthy_value member value and_then]. rewrite Hresults.
  cbn [truthy_value length_gt0 Dynamic.first hd_error value and_then].
  destruct (plantInfo (Some first)); reflexivity.
Qed.

(** C4, as the code has it.  For an upstream payload whose first ranked
    match is well-shaped (an object with a species object, common names
    missing or a list, images missing or a list whose first entry has a url
    object), the reply's [scientific_name] is the first match's scientific
    name and its [confidence] is the first match's score, each as
    [JSON.stringify] writes the value received: a text as it is, a number
    as it is unless it is not finite or a negative zero.  A member the
    match lacks is missing from the reply as well. *)
Theorem best_match_name_and_score {engine : Engine} (key : option string)
        (file : File) (up : Upstream) (call : Request) (first : Json) :
  In call (calls (post_identify key (Some file) up)) ->
  BestMatch (up call) first ->
  WellShaped first ->
  exists r,
    reply (post_identify key (Some file) up) = Some r
    /\ status r = 200%Z
    /\ result_member "scientific_name" r
       = option_map serialize
           (species_member "scientificNameWithoutAuthor" first)
    /\ result_member "confidence" r
       = option_map serialize (field "score" first)
    /\ (forall name,
          species_member "scientificNameWithoutAuthor" first
          = Some (JStr name) ->
          result_member "scientific_name" r = Some (JStr name))
    /\ (forall x,
          field "score" first = Some (JNum x) ->
          serialize (JNum x) = JNum x ->
          result_member "confidence" r = Some (JNum x)).
Proof.
  intros Hin Hb Hw.
  destruct (plantInfo_well_shaped first Hw)
    as (ms & species & info & -> & Hsp & Hinfo & _ & Hsci & _ & Hconf & _).
  rewrite (best_match_reply _ _ _ _ _ Hin Hb), Hinfo.
  eexists. split; [reflexivity|]. split; [reflexivity|].
  unfold result_member, species_member.
  cbn [body json serialize map fst snd field lookup String.eqb Ascii.eqb
       Bool.eqb].
  rewrite !field_serialize, Hsci, Hconf, Hsp. cbn [field].
  split; [reflexivity|]. split; [reflexivity|]. split.
  - now intros name ->.
  - intros x -> Hx. exact (f_equal Some Hx).
Qed.

Lemma best_match_name_and_score_witness :
  In leaf_call
     (calls (post_identify (Some "secret") (Some leaf) (answers [dog_rose])))
  /\ BestMatch (answers [dog_rose] leaf_call) dog_rose
  /\ WellShaped dog_rose
  /\ exists r,
      reply (post_identify (Some "secret") (Some leaf) (answers [dog_rose]))
      = Some r
      /\ status r = 200%Z
      /\ result_member "scientific_name" r = Some (JStr "Rosa canina")
      /\ result_member "confidence" r = Some (JNum 0.8731).
Proof.
  assert (Hin : In leaf_call
                   (calls (post_identify (Some "secret") (Some leaf)
                                         (answers [dog_rose]))))
    by (left; reflexivity).
  assert (Hb : BestMatch (answers [dog_rose] leaf_call) dog_rose).
  { eexists 200%Z, _, []. split; [reflexivity|]. split; [lia|]. reflexivity. }
  assert (Hw : WellShaped dog_rose).
  { eexists _, _. split; [reflexivity|]. split; [reflexivity|]. split.
    - right; right. eexists. reflexivity.
    - right; right; right. eexists _, _, _. split; reflexivity. }
  split; [exact Hin|]. split; [exact Hb|]. split; [exact Hw|].
  destruct (best_match_name_and_score (Some "secret") leaf
              (answers [dog_rose]) leaf_call dog_rose Hin Hb Hw)
    as (r & Hr & Hst & _ & _ & Hname & Hscore).
  exists r. split; [exact Hr|]. split; [exact Hst|]. split.
  - exact (Hname _ eq_refl).
  - exact (Hscore _ eq_refl eq_refl).
Defined.

(** C4 as stated fails: a first match that has a scientific name and a
    score but whose first image has no [url] makes the handler throw while
    it builds the record, and the catch block answers with a placeholder
    that carries neither. *)
Lemma malformed_match_gets_placeholder :
  BestMatch (answers [image_without_url] leaf_call) image_without_url
  /\ species_member "scientificNameWithoutAuthor" image_without_url
     = Some (JStr "Rosa canina")
  /\ field "score" image_without_url = Some (JNum 0.91)
  /\ forall engine : Engine,
      In leaf_call
         (calls (post_identify (Some "secret") (Some leaf)
                               (answers [image_without_url])))
      /\ exists r,
          reply (post_identify (Some "secret") (Some leaf)
                               (answers [image_without_url])) = Some r
          /\ status r = 200%Z
          /\ field "note" (body r) <> None
          /\ result_member "scientific_name" r
             = Some (JStr "Monstera deliciosa")
          /\ result_member "scientific_name" r <> Some (JStr "Rosa canina")
          /\ result_member "confidence" r <> Some (JNum 0.91).
Proof.
  split.
  { eexists 200%Z, _, []. split; [reflexivity|]. split; [lia|]. reflexivity. }
  split; [reflexivity|]. split; [reflexivity|].
  intros engine. split; [left; reflexivity|].
  eexists. split; [reflexivity|]. split; [reflexivity|].
  split; [discriminate|].
  split; [reflexivity|]. split; [discriminate|].
  cbn. intros [= H].
Qed.

(** C5, as the code has it.  For an upstream payload whose first ranked
    match is well-shaped: [name] is the first common name of the first
    match when it lists any, else its scientific name; [description] is its
    description when that is present and truthy (for a text: not empty),
    else the fixed description-unavailable string; [image_url] is the
    medium-size URL of its first image when it lists any, else the empty
    string.  Each value is written as [JSON.stringify] writes it (a text
    as it is); a member the match lacks is missing from the reply as
    well. *)
Theorem best_match_normalized {engine : Engine} (key : option string)
        (file : File) (up : Upstream) (call : Request) (first : Json) :
  In call (calls (post_identify key (Some file) up)) ->
  BestMatch (up call) first ->
  WellShaped first ->
  exists r,
    reply (post_identify key (Some file) up) = Some r
    /\ (forall common names,
          species_member "commonNames" first = Some (JArr (common :: names)) ->
          result_member "name" r = Some (serialize common))
    /\ (species_member "commonNames" first = Some (JArr [])
        \/ species_member "commonNames" first = Some JNull
        \/ species_member "commonNames" first = None ->
        result_member "name" r
        = option_map serialize
            (species_member "scientificNameWithoutAuthor" first))
    /\ (truthy_value (species_member "description" first) = true ->
        result_member "description" r
        = option_map serialize (species_member "description" first))
    /\ (truthy_value (species_member "description" first) = false ->
        result_member "description" r = Some (JStr description_unavailable))
    /\ (forall image rest url,
          field "images" first = Some (JArr (image :: rest)) ->
          field "url" image = Some url ->
          result_member "image_url" r = option_map serialize (field "m" url))
    /\ (field "images" first = Some (JArr [])
        \/ field "images" first = Some JNull
        \/ field "images" first = None ->
        result_member "image_url" r = Some (JStr "")).
Proof.
  intros Hin Hb Hw.
  destruct (plantInfo_well_shaped first Hw)
    as (ms & species & info & -> & Hsp & Hinfo
        & Hname & Hsci & Hdesc & Hconf & Himg).
  rewrite (best_match_reply _ _ _ _ _ Hin Hb), Hinfo.
  eexists. split; [reflexivity|].
  unfold result_member, species_member.
  cbn [body json serialize map fst snd field lookup String.eqb Ascii.eqb
       Bool.eqb].
  rewrite !field_serialize, Hname, Hdesc, Himg, Hsp. cbn [field].
  repeat split.
  - now intros common names ->.
  - now intros [-> | [-> | ->]].
  - now intros ->.
  - now intros ->.
  - now intros image rest url -> ->.
  - now intros [-> | [-> | ->]].
Qed.

Lemma best_match_normalized_witness :
  In leaf_call
     (calls (post_identify (Some "secret") (Some leaf) (answers [dog_rose])))
  /\ BestMatch (answers [dog_rose] leaf_call) dog_rose
  /\ WellShaped dog_rose
  /\ exists r,
      reply (post_identify (Some "secret") (Some leaf) (answers [dog_rose]))
      = Some r
      /\ result_member "name" r = Some (JStr "Dog rose")
      /\ result_member "description" r = Some (JStr "A climbing wild rose.")
      /\ result_member "image_url" r
         = Some (JStr "https://bs.plantnet.org/image/m/1a2b").
Proof.
  assert (Hin : In leaf_call
                   (calls (post_identify (Some "secret") (Some leaf)
                                         (answers [dog_rose]))))
    by (left; reflexivity).
  assert (Hb : BestMatch (answers [dog_rose] leaf_call) dog_rose).
  { eexists 200%Z, _, []. split; [reflexivity|]. split; [lia|]. reflexivity. }
  assert (Hw : WellShaped dog_rose).
  { eexists _, _. split; [reflexivity|]. split; [reflexivity|]. split.
    - right; right. eexists. reflexivity.
    - right; right; right. eexists _, _, _. split; reflexivity. }
  split; [exact Hin|]. split; [exact Hb|]. split; [exact Hw|].
  destruct (best_match_normalized (Some "secret") leaf (answers [dog_rose])
              leaf_call dog_rose Hin Hb Hw)
    as (r & Hr & Hname & _ & Hdesc & _ & Himg & _).
  exists r. split; [exact Hr|]. split; [|split].
  - exact (Hname _ _ eq_refl).
  - exact (Hdesc eq_refl).
  - exact (Himg _ _ _ eq_refl eq_refl).
Defined.

(** C5 as stated fails: a best match whose description text is present
    but empty is answered with the description-unavailable string, not
    with its own (empty) text. *)
Lemma empty_description_is_replaced :
  BestMatch (answers [blank_description] leaf_call) blank_description
  /\ species_member "description" blank_description = Some (JStr "")
  /\ forall engine : Engine,
      In leaf_call
         (calls (post_identify (Some "secret") (Some leaf)
                               (answers [blank_description])))
      /\ exists r,
          reply (post_identify (Some "secret") (Some leaf)
                               (answers [blank_description])) = Some r
          /\ field "note" (body r) = None
          /\ result_member "description" r
             = Some (JStr description_unavailable)
          /\ result_member "description" r <> Some (JStr "").
Proof.
  split.
  { eexists 200%Z, _, []. split; [reflexivity|]. split; [lia|]. reflexivity. }
  split; [reflexivity|].
  intros engine. split; [left; reflexivity|].
  eexists. split; [reflexivity|]. split; [reflexivity|].
  split; [reflexivity | discriminate].
Qed.

(** *** Shape of the replies *)

Lemma mockPlants_well_formed (i : N) (record : Json) :
  index mockPlants i = Some record -> WellFormedResult record.
Proof.
  unfold index, mockPlants. intros Hi k Hk.
  unfold result_members in Hk. simpl in Hk.
  destruct (N.to_nat i) as [|[|[|[|n]]]]; simpl in Hi;
    try discriminate; injection Hi as <-;
    repeat (destruct Hk as [<- | Hk]; [discriminate|]);
    contradiction.
Qed.

Lemma error_middleware_status (e : Failure) :
  (status (error_middleware e) = 400 \/ status (error_middleware e) = 500)%Z
  /\ field "success" (body (error_middleware e)) = Some (JBool false).
Proof.
  destruct e as [code msg | msg]; simpl.
  - destruct (String.eqb code "LIMIT_FILE_SIZE"); simpl; auto.
  - auto.
Qed.

(** Once the call has settled the reply is the placeholder or the
    record built from the payload. *)
Lemma settled_reply_cases {engine : Engine} (mock : Response)
      (outcome : AxiosError + AxiosResponse) :
  settled_reply mock outcome = mock
  \/ exists result info,
      plantInfo result = inr info
      /\ settled_reply mock outcome
         = json (JObj [("success", JBool true); ("result", info)]).
Proof.
  unfold settled_reply.
  destruct outcome as [e | response]; [now left|].
  destruct (has_results (response_data response)) as [e | []];
    [now left | | now left].
  unfold identified.
  destruct (member "results" (response_data response)) as [e | results];
    [now left|].
  cbn [and_then].
  destruct (Dynamic.first results) as [e | result]; [now left|].
  cbn [and_then].
  destruct (plantInfo result) as [e | info] eqn:Hinfo; [now left|].
  right. now exists result, info.
Qed.

Lemma complete_well_shaped (first : Json) : Complete first -> WellShaped first.
Proof.
  intros (ms & species & -> & Hsp & _ & _ & Hcn & Himg).
  exists ms, species. split; [reflexivity|]. split; [exact Hsp|].
  split; [exact Hcn|].
  destruct Himg as [H | [H | [H | (image & rest & url & H & Hu & _)]]].
  - now left.
  - now right; left.
  - now right; right; left.
  - right; right; right. now exists image, rest, url.
Qed.

(** The record built from a complete match has all seven members. *)
Lemma complete_well_formed {engine : Engine} (first : Json) :
  Complete first ->
  exists info, plantInfo (Some first) = inr info /\ WellFormedResult info.
Proof.
  intros Hc.
  destruct (plantInfo_well_shaped first (complete_well_shaped _ Hc))
    as (ms & species & info & Hfirst & Hsp & Hinfo
        & Hname & Hsci & Hdesc & Hconf & Himg).
  exists info. split; [exact Hinfo|].
  destruct (plantInfo_built _ _ Hinfo) as (Hd & Hb & Hw).
  destruct Hc as (ms' & species' & Hfirst' & Hsp' & Hscore & Hsn & Hcn & Hi).
  rewrite Hfirst in Hfirst'. injection Hfirst' as <-.
  rewrite Hsp in Hsp'. injection Hsp' as <-.
  intros k Hk. unfold result_members in Hk. simpl in Hk.
  destruct Hk as [<- | [<- | [<- | [<- | [<- | [<- | [<- | []]]]]]]];
    try assumption.
  - rewrite Hname.
    destruct (lookup "commonNames" species) as [[| | | | [|common names] |]|];
      try assumption; discriminate.
  - now rewrite Hsci.
  - now rewrite Hconf.
  - rewrite Himg.
    destruct Hi as [H | [H | [H | (image & rest & url & H & Hu & Hm)]]];
      rewrite H; try discriminate.
    cbn [field]. now rewrite Hu.
Qed.

(** C7 as stated fails: a ranked match without a score is answered
    with status 200 and a result that has no [confidence] member. *)
Lemma unscored_match_lacks_confidence :
  BestMatch (answers [unscored] leaf_call) unscored
  /\ forall engine : Engine,
      In leaf_call
         (calls (post_identify (Some "secret") (Some leaf)
                               (answers [unscored])))
      /\ exists r result,
          reply (post_identify (Some "secret") (Some leaf)
                               (answers [unscored])) = Some r
          /\ status r = 200%Z
          /\ field "result" (body r) = Some result
          /\ field "confidence" result = None
          /\ ~ WellFormedResult result.
Proof.
  split.
  { eexists 200%Z, _, []. split; [reflexivity|]. split; [lia|]. reflexivity. }
  intros engine. split; [left; reflexivity|].
  eexists _, _. split; [reflexivity|]. split; [reflexivity|].
  split; [reflexivity|]. split; [reflexivity|].
  intros H. apply (H "confidence"); [|reflexivity].
  unfold result_members. simpl. tauto.
Qed.

(** C7, as the code has it.  Every request is answered.  A reply with
    status 200 carries a result record that always has [description],
    [benefits] and [warnings]; it has all seven members when it is a
    placeholder (the reply then has a note) and when it is built from a
    complete match: one with a score, a scientific name and, when it lists
    images, a medium-size URL for the first.  Once a call to the upstream has gone out the reply is
    a 200 success whatever the upstream did; and a reply with another
    status is a 4xx/5xx for a request that failed a local check, with no
    call made. *)
Theorem identify_reply_invariant {engine : Engine} (key : option string)
        (part : option File) (up : Upstream) :
  exists r,
    reply (post_identify key part up) = Some r
    /\ (status r = 200%Z ->
        exists result,
          field "result" (body r) = Some result
          /\ field "description" result <> None
          /\ field "benefits" result <> None
          /\ field "warnings" result <> None
          /\ (field "note" (body r) <> None -> WellFormedResult result)
          /\ (forall call first,
                In call (calls (post_identify key part up)) ->
                BestMatch (up call) first ->
                Complete first ->
                WellFormedResult result))
    /\ (calls (post_identify key part up) <> [] ->
        status r = 200%Z /\ field "success" (body r) = Some (JBool true))
    /\ (status r <> 200%Z ->
        (400 <= status r < 600)%Z
        /\ calls (post_identify key part up) = []
        /\ LocalFailure key part).
Proof.
  destruct part as [file|].
  - destruct (single_cases file) as [E | [E | [e E]]].
    + destruct (api_key key) as [k|] eqn:Hk.
      * destruct (identify_handler_run key k file up Hk) as (ct & _ & Hrun).
        assert (Hpost : post_identify key (Some file) up
                        = identify_handler key (Some file) up)
          by (unfold post_identify; now rewrite E).
        destruct (mock_reply_record (size file)) as (record & Hrec & Hm).
        assert (Hmock : WellFormedResult record)
          by exact (mockPlants_well_formed _ _ Hrec).
        destruct (settled_reply_cases (mock_reply (size file))
                    (settle (up (outbound k file ct))))
          as [Hs | (result & info & Hinfo & Hs)].
        -- exists (mock_reply (size file)).
           split; [rewrite Hpost, Hrun, Hs; reflexivity|].
           rewrite Hpost, Hrun, Hm. unfold calls. simpl.
           split.
           ++ intros _. exists record. split; [reflexivity|].
              split; [apply Hmock; simpl; tauto|].
              split; [apply Hmock; simpl; tauto|].
              split; [apply Hmock; simpl; tauto|].
              split; [intros _; exact Hmock | intros; exact Hmock].
           ++ split; [intros _; now split | congruence].
        -- exists (json (JObj [("success", JBool true); ("result", info)])).
           split; [rewrite Hpost, Hrun, Hs; reflexivity|].
           destruct (plantInfo_built _ _ Hinfo) as (Hd & Hb & Hw).
           split.
           ++ intros _. exists (serialize info). split; [reflexivity|].
              assert (Hkeep : forall m, field m info <> None ->
                                        field m (serialize info) <> None).
              { intros m Hm'. rewrite field_serialize.
                destruct (field m info); [discriminate | congruence]. }
              split; [now apply Hkeep|]. split; [now apply Hkeep|].
              split; [now apply Hkeep|].
              split; [intros H; now contradiction H|].
              intros call first Hin Hbest Hc.
              pose proof (best_match_reply _ _ _ _ _ Hin Hbest) as Hreply.
              destruct (complete_well_formed first Hc) as (info' & Hi' & Hwf).
              rewrite Hi', Hpost, Hrun, Hs in Hreply.
              unfold reply, json in Hreply.
              cbn [snd serialize map fst snd] in Hreply.
              assert (Hsame : serialize info = serialize info')
                by congruence.
              rewrite Hsame. now apply well_formed_serialize.
           ++ split; [intros _; now split | simpl; congruence].
      * exists missing_credential_reply.
        unfold post_identify, identify_handler, try_catch, identify_try.
        rewrite E, Hk. unfold reply, calls. simpl.
        split; [reflexivity|].
        split; [discriminate|]. split; [congruence|].
        intros _. split; [lia|]. split; [reflexivity|].
        unfold LocalFailure. rewrite E. now apply api_key_absent.
    + exists missing_file_reply.
      unfold post_identify. rewrite E. unfold reply, calls. simpl.
      split; [reflexivity|].
      split; [discriminate|]. split; [congruence|].
      intros _. split; [lia|]. split; [reflexivity|].
      unfold LocalFailure. now rewrite E.
    + unfold post_identify. rewrite E. unfold reply, calls, ret. simpl.
      destruct (error_middleware_status e) as [Hst _].
      eexists. split; [reflexivity|].
      split; [intros H; rewrite H in Hst; destruct Hst; discriminate|].
      split; [congruence|].
      intros _. split; [destruct Hst as [-> | ->]; lia|].
      split; [reflexivity|].
      unfold LocalFailure. now rewrite E.
  - exists missing_file_reply. split; [reflexivity|]. simpl.
    split; [discriminate|]. split; [congruence|].
    intros _. split; [lia|]. split; [reflexivity | exact I].
Qed.

(** *** Type and size checks of the upload acceptor *)

Lemma contentType_of_ext_media_type (ext : string) :
  In ext image_extensions ->
  contentType_of_ext ext = media_type_of_extension ext.
Proof.
  unfold image_extensions. simpl.
  intros H. repeat (destruct H as [<- | H]; [reflexivity|]).
  contradiction.
Qed.

Lemma media_type_not_binary (ext : string) :
  media_type_of_extension ext <> "application/octet-stream".
Proof. unfold media_type_of_extension. simpl. discriminate. Qed.

(** For a Flutter upload the handler's content type is the one its
    extension stands for. *)
Lemma contentType_of_flutter (file : File) (stem ext : string)
      (up : Upstream) :
  mimetype file = "application/octet-stream" ->
  originalname file = stem ++ "." ++ ext ->
  In (toLowerCase ext) image_extensions ->
  contentType_of file up
  = ([], inr (media_type_of_extension (toLowerCase ext))).
Proof.
  intros Hm Hn Hx. unfold contentType_of.
  rewrite Hm, Hn, (pop_split_extension stem ext Hx).
  rewrite String.eqb_refl.
  now rewrite (contentType_of_ext_media_type _ Hx).
Qed.

(** C8. An upload declared as [application/octet-stream] whose
    filename ends in a known image extension (in any case) passes the
    filter, and every call made for it carries the image type its
    extension stands for, not the declared binary type; below the size
    limit the acceptor hands it on, and with a credential the call is
    made. *)
Theorem flutter_upload_accepted_and_retyped {engine : Engine} (file : File)
        (stem ext : string) :
  mimetype file = "application/octet-stream" ->
  originalname file = stem ++ "." ++ ext ->
  In (toLowerCase ext) image_extensions ->
  fileFilter file = inr true
  /\ (forall key up call,
        In call (calls (post_identify key (Some file) up)) ->
        image_contentType call = media_type_of_extension (toLowerCase ext)
        /\ image_contentType call <> mimetype file)
  /\ ((size file < fileSize)%N ->
      single (Some file) = Continue (Some file)
      /\ forall key up,
          ~ CredentialAbsent key ->
          exists call, calls (post_identify key (Some file) up) = [call]).
Proof.
  intros Hm Hn Hx.
  assert (Hok : fileFilter file = inr true).
  { apply fileFilter_allowed. right. split; [exact Hm|]. now exists stem, ext. }
  split; [exact Hok|]. split.
  - intros key up call Hin.
    destruct (post_identify_called _ _ _ _ Hin)
      as (file' & k & ct & [= <-] & _ & _ & Hct & -> & _).
    rewrite (contentType_of_flutter file stem ext up Hm Hn Hx) in Hct.
    injection Hct as <-. simpl. split; [reflexivity|].
    rewrite Hm. apply media_type_not_binary.
  - intros Hsize.
    assert (Hs : single (Some file) = Continue (Some file)).
    { unfold single. rewrite Hok, Hn.
      replace (fileSize <=? size file)%N with false
        by (symmetry; apply N.leb_gt; exact Hsize).
      destruct stem; reflexivity. }
    split; [exact Hs|].
    intros key up Hkey.
    destruct (api_key key) as [k|] eqn:Hk;
      [| now apply api_key_absent in Hk].
    destruct (identify_handler_run key k file up Hk) as (ct & _ & Hrun).
    exists (outbound k file ct).
    unfold post_identify. now rewrite Hs, Hrun.
Qed.

Lemma flutter_upload_accepted_and_retyped_witness :
  mimetype flutter_photo = "application/octet-stream"
  /\ originalname flutter_photo = "IMG_0042" ++ "." ++ "JPG"
  /\ In (toLowerCase "JPG") image_extensions
  /\ fileFilter flutter_photo = inr true
  /\ (forall call,
        In call (calls (post_identify (Some "secret") (Some flutter_photo)
                                      down)) ->
        image_contentType call = "image/jpeg")
  /\ exists call,
      calls (post_identify (Some "secret") (Some flutter_photo) down) = [call].
Proof.
  assert (Hm : mimetype flutter_photo = "application/octet-stream")
    by reflexivity.
  assert (Hn : originalname flutter_photo = "IMG_0042" ++ "." ++ "JPG")
    by reflexivity.
  assert (Hx : In (toLowerCase "JPG") image_extensions) by (left; reflexivity).
  split; [exact Hm|]. split; [exact Hn|]. split; [exact Hx|].
  destruct (flutter_upload_accepted_and_retyped flutter_photo "IMG_0042" "JPG"
              Hm Hn Hx) as (Hok & Hcalls & Hsent).
  split; [exact Hok|]. split.
  - intros call Hin. exact (proj1 (Hcalls _ _ _ Hin)).
  - apply Hsent.
    + reflexivity.
    + intros [H | H]; discriminate.
Defined.

(** C2 as stated fails: a PDF upload is turned away with status 500,
    not 400. *)
Lemma unsupported_type_is_500 :
  startsWith (mimetype notes_pdf) "image/" = false
  /\ mimetype notes_pdf <> "application/octet-stream"
  /\ ~ AllowedType notes_pdf
  /\ option_map status (reply (post_identify (Some "secret") (Some notes_pdf)
                                             down)) = Some 500%Z
  /\ option_map status (reply (post_identify (Some "secret") (Some notes_pdf)
                                             down)) <> Some 400%Z.
Proof.
  split; [reflexivity|]. split; [discriminate|]. split.
  - intros H. apply fileFilter_allowed in H. discriminate.
  - split; [reflexivity | discriminate].
Qed.

(** C2, as the code has it.  An upload with a filename whose declared
    content type neither starts with the image prefix nor falls under the
    binary-type-with-image-extension accommodation is answered with status
    500 and [success: false] (its error reaches the generic branch of the
    error middleware), and no call goes out. *)
Theorem unsupported_type_rejected {engine : Engine} (key : option string) (file : File)
        (up : Upstream) :
  originalname file <> "" ->
  ~ AllowedType file ->
  (exists b,
      reply (post_identify key (Some file) up)
      = Some {| status := 500; body := b |}
      /\ field "success" b = Some (JBool false)
      /\ field "error" b = Some (JStr "Только изображения разрешены"))
  /\ calls (post_identify key (Some file) up) = [].
Proof.
  intros Hname Hbad.
  unfold post_identify, single.
  rewrite (fileFilter_rejected file Hbad).
  destruct (originalname file) as [|c name]; [congruence|]. simpl.
  split; [|reflexivity]. eexists. repeat split.
Qed.

Lemma unsupported_type_rejected_witness :
  originalname notes_pdf <> ""
  /\ ~ AllowedType notes_pdf
  /\ (exists b,
        reply (post_identify (Some "secret") (Some notes_pdf) down)
        = Some {| status := 500; body := b |}
        /\ field "success" b = Some (JBool false)
        /\ field "error" b = Some (JStr "Только изображения разрешены"))
  /\ calls (post_identify (Some "secret") (Some notes_pdf) down) = [].
Proof.
  assert (Hname : originalname notes_pdf <> "") by discriminate.
  assert (Hbad : ~ AllowedType notes_pdf).
  { intros H. apply fileFilter_allowed in H. discriminate. }
  split; [exact Hname|]. split; [exact Hbad|].
  exact (unsupported_type_rejected (Some "secret") notes_pdf down Hname Hbad).
Defined.

(** C9 as stated fails: an 11 MiB PDF is over the ceiling, yet it is
    the type filter that turns it away, with status 500. *)
Lemma oversized_unsupported_is_500 :
  (fileSize < size huge_pdf)%N
  /\ option_map status (reply (post_identify (Some "secret") (Some huge_pdf)
                                             down)) = Some 500%Z
  /\ option_map status (reply (post_identify (Some "secret") (Some huge_pdf)
                                             down)) <> Some 400%Z.
Proof.
  split; [reflexivity|]. split; [reflexivity | discriminate].
Qed.

(** C9, as the code has it.  An upload of an allowed type whose payload
    exceeds the 10 MiB ceiling is answered with status 400 and
    [success: false], and no call goes out. *)
Theorem oversized_upload_rejected {engine : Engine} (key : option string) (file : File)
        (up : Upstream) :
  AllowedType file ->
  (fileSize < size file)%N ->
  (exists b,
      reply (post_identify key (Some file) up)
      = Some {| status := 400; body := b |}
      /\ field "success" b = Some (JBool false))
  /\ calls (post_identify key (Some file) up) = [].
Proof.
  intros Hok Hbig. apply fileFilter_allowed in Hok.
  assert (Hfull : (fileSize <=? size file)%N = true)
    by (apply N.leb_le; lia).
  unfold post_identify, single. rewrite Hok, Hfull.
  destruct (negb (truthy (originalname file)));
    (split; [eexists; split; reflexivity | reflexivity]).
Qed.

Lemma oversized_upload_rejected_witness :
  AllowedType huge_png
  /\ (fileSize < size huge_png)%N
  /\ (exists b,
        reply (post_identify (Some "secret") (Some huge_png) down)
        = Some {| status := 400; body := b |}
        /\ field "success" b = Some (JBool false))
  /\ calls (post_identify (Some "secret") (Some huge_png) down) = [].
Proof.
  assert (Hok : AllowedType huge_png) by (left; reflexivity).
  assert (Hbig : (fileSize < size huge_png)%N) by reflexivity.
  split; [exact Hok|]. split; [exact Hbig|].
  exact (oversized_upload_rejected (Some "secret") huge_png down Hok Hbig).
Defined.

(* ================================================================= *)
(** ** Further properties of the server *)

(** *** Helper facts *)

Lemma api_key_present (key : option string) (k : string) :
  api_key key = Some k <-> key = Some k /\ k <> "".
Proof.
  unfold api_key. destruct key as [[|c s]|]; simpl; split.
  - discriminate.
  - intros [[= <-] H]. congruence.
  - intros [= <-]. split; [reflexivity | discriminate].
  - now intros [[= <-] _].
  - discriminate.
  - now intros [? _].
Qed.

(** What it takes for the acceptor to hand a file on. *)
Lemma single_handed (part : option File) (file : File) :
  single part = Continue (Some file) ->
  part = Some file
  /\ originalname file <> ""
  /\ fileFilter file = inr true
  /\ (size file < fileSize)%N.
Proof.
  destruct part as [f|]; [|discriminate]. unfold single.
  destruct (originalname f) as [|c name] eqn:Hn; [discriminate|]. simpl.
  destruct (fileFilter f) as [e | []] eqn:Hf; try discriminate.
  destruct (fileSize <=? size f)%N eqn:Hs; [discriminate|].
  intros [= <-]. rewrite Hn. repeat split; try assumption.
  - discriminate.
  - now apply N.leb_gt.
Qed.

(** Every request either reaches the upstream with one call and is
    answered from its outcome, or is answered 400 or 500 without a call. *)
Lemma post_identify_cases {engine : Engine} (key : option string)
      (part : option File) (up : Upstream) :
  (exists file k ct,
      single part = Continue (Some file)
      /\ api_key key = Some k
      /\ contentType_of file up = ([], inr ct)
      /\ post_identify key part up
         = ([outbound k file ct],
            inr (settled_reply (mock_reply (size file))
                               (settle (up (outbound k file ct))))))
  \/ (exists r,
        post_identify key part up = ([], inr r)
        /\ (status r = 400 \/ status r = 500)%Z
        /\ field "success" (body r) = Some (JBool false)
        /\ ((forall file, single part <> Continue (Some file))
            \/ CredentialAbsent key)).
Proof.
  unfold post_identify.
  destruct (single part) as [[file|]|e] eqn:E.
  - destruct (api_key key) as [k|] eqn:Hk.
    + left. destruct (identify_handler_run key k file up Hk) as (ct & Hct & Hrun).
      now exists file, k, ct.
    + right. unfold identify_handler, try_catch, identify_try. rewrite Hk.
      eexists. split; [reflexivity|]. simpl.
      split; [now right|]. split; [reflexivity|].
      right. now apply api_key_absent.
  - right. eexists. split; [reflexivity|]. simpl.
    split; [now left|]. split; [reflexivity|]. left. discriminate.
  - right. eexists. split; [reflexivity|].
    destruct (error_middleware_status e) as [Hst Hs].
    split; [exact Hst|]. split; [exact Hs|]. left. discriminate.
Qed.

Lemma answered_status {engine : Engine} (fileSize : N)
      (outcome : AxiosError + AxiosResponse) :
  status (settled_reply (mock_reply fileSize) outcome) = 200%Z.
Proof.
  destruct (settled_reply_cases (mock_reply fileSize) outcome)
    as [-> | (result & info & _ & ->)]; reflexivity.
Qed.

(** *** Outbound calls *)

(** X1. A request leads to at most one upstream call, never a second
    one.  The call is made exactly when the acceptor hands a file on and a
    non-empty credential is configured; it goes to the identify URL with
    the credential as bearer token, the upload's own filename and byte
    count, a 30 s timeout and the four fixed form fields. *)
Theorem identify_contacts_upstream_once {engine : Engine} (key : option string)
        (part : option File) (up : Upstream) :
  (calls (post_identify key part up) = []
   /\ ((forall file, single part <> Continue (Some file))
       \/ CredentialAbsent key))
  \/ (exists file k call,
        single part = Continue (Some file)
        /\ key = Some k /\ k <> ""
        /\ calls (post_identify key part up) = [call]
        /\ target call = "https://my-api.plantnet.org/v2/identify"
        /\ authorization call = "Bearer " ++ k
        /\ image_filename call = originalname file
        /\ image_bytes call = size file
        /\ timeout call = 30000%Z
        /\ form_fields call
           = [("organs", "auto");
              ("modifiers",
               "crops-simple,similar_images,plant_net,plant_net_detailed");
              ("no-reject", "true");
              ("plant-details", "common_names,url,description,image")]).
Proof.
  destruct (post_identify_cases key part up)
    as [(file & k & ct & Hs & Hk & _ & Hrun) | (r & Hrun & _ & _ & Hwhy)].
  - right. exists file, k, (outbound k file ct).
    apply api_key_present in Hk as [Hkey Hne].
    destruct (single_handed _ _ Hs) as (_ & Hname & _ & _).
    rewrite Hrun. repeat split; try assumption. simpl.
    destruct (originalname file); [congruence | reflexivity].
  - left. rewrite Hrun. now split.
Qed.

(** X2. A request is answered with status 200 exactly when the
    upstream was contacted for it; every reply given without an upstream
    call has status 400 or 500. *)
Theorem ok_reply_iff_upstream_contacted {engine : Engine}
        (key : option string) (part : option File) (up : Upstream) :
  (option_map status (reply (post_identify key part up)) = Some 200%Z
   <-> calls (post_identify key part up) <> [])
  /\ (calls (post_identify key part up) = [] ->
      option_map status (reply (post_identify key part up)) = Some 400%Z
      \/ option_map status (reply (post_identify key part up)) = Some 500%Z).
Proof.
  destruct (post_identify_cases key part up)
    as [(file & k & ct & _ & _ & _ & Hrun) | (r & Hrun & Hst & _ & _)];
    rewrite Hrun; unfold reply, calls; simpl.
  - rewrite answered_status. split.
    + split; [discriminate | reflexivity].
    + discriminate.
  - split.
    + split; [|congruence].
      intros [= H]. rewrite H in Hst. destruct Hst; discriminate.
    + intros _. destruct Hst as [-> | ->]; [now left | now right].
Qed.

Lemma image_prefix_not_binary (mime : string) :
  startsWith mime "image/" = true ->
  String.eqb mime "application/octet-stream" = false.
Proof.
  intros H. destruct (String.eqb mime "application/octet-stream") eqn:E;
    [|reflexivity].
  apply String.eqb_eq in E. subst mime. discriminate.
Qed.

Lemma media_type_is_image (ext : string) :
  startsWith (media_type_of_extension ext) "image/" = true.
Proof.
  unfold media_type_of_extension, startsWith.
  destruct (String.eqb ext "jpg"); [reflexivity|].
  destruct ext; reflexivity.
Qed.

(** X3. Whatever call goes out carries an image media type: a declared
    type other than the generic binary one is forwarded as it is, and the
    default branch of the extension switch is never what decides. *)
Theorem outbound_content_type_is_image {engine : Engine} (key : option string) (file : File)
        (up : Upstream) (call : Request) :
  In call (calls (post_identify key (Some file) up)) ->
  startsWith (image_contentType call) "image/" = true
  /\ (mimetype file <> "application/octet-stream" ->
      image_contentType call = mimetype file)
  /\ (mimetype file = "application/octet-stream" ->
      exists stem ext,
        originalname file = stem ++ "." ++ ext
        /\ In (toLowerCase ext) image_extensions
        /\ image_contentType call = contentType_of_ext (toLowerCase ext)).
Proof.
  intros Hin.
  destruct (post_identify_called _ _ _ _ Hin)
    as (file' & k & ct & [= <-] & Hs & _ & Hct & -> & _).
  destruct (single_handed _ _ Hs) as (_ & _ & Hok & _).
  apply fileFilter_allowed in Hok. simpl.
  destruct (String.eqb (mimetype file) "application/octet-stream") eqn:Hb.
  - apply String.eqb_eq in Hb.
    destruct Hok as [Hp | [_ (stem & ext & Hn & Hx)]];
      [rewrite Hb in Hp; discriminate|].
    rewrite (contentType_of_flutter file stem ext up Hb Hn Hx) in Hct.
    injection Hct as <-. split; [apply media_type_is_image|].
    split; [congruence|].
    intros _. exists stem, ext. split; [exact Hn|]. split; [exact Hx|].
    symmetry. now apply contentType_of_ext_media_type.
  - apply String.eqb_neq in Hb.
    destruct Hok as [Hp | [Ho _]]; [|congruence].
    unfold contentType_of in Hct. rewrite (image_prefix_not_binary _ Hp) in Hct.
    injection Hct as <-. split; [exact Hp|]. split; [reflexivity | congruence].
Qed.

Lemma outbound_content_type_is_image_witness :
  In flutter_call
     (calls (post_identify (Some "secret") (Some flutter_photo) down))
  /\ startsWith (image_contentType flutter_call) "image/" = true.
Proof.
  assert (Hin : In flutter_call
                   (calls (post_identify (Some "secret") (Some flutter_photo)
                                         down)))
    by (left; reflexivity).
  split; [exact Hin|].
  exact (proj1 (outbound_content_type_is_image (Some "secret") flutter_photo
                  down flutter_call Hin)).
Defined.

(** *** The upload filter and the error middleware *)

(** X4. The upload filter lets a file through exactly when its declared
    type starts with the image prefix, or is the generic binary type with a
    filename ending in a dot and a known image extension in any letter
    case; every other file gets the images-only error. *)
Theorem upload_filter_accepts_exactly_allowed (file : File) :
  (fileFilter file = inr true <-> AllowedType file)
  /\ (fileFilter file = inl (Error "Только изображения разрешены")
      <-> ~ AllowedType file)
  /\ fileFilter file <> inr false.
Proof.
  split; [apply fileFilter_allowed|]. split; [split|].
  - intros H Hok. apply fileFilter_allowed in Hok. congruence.
  - apply fileFilter_rejected.
  - unfold fileFilter.
    destruct (isImageMime file || isFlutterImage file); discriminate.
Qed.

Lemma image_extension_test_free (s : string) :
  free_of "." s = true -> image_extension_test s = false.
Proof.
  induction s as [|c s IH]; [reflexivity|].
  rewrite image_extension_test_cons. simpl.
  intros [Hc Hs]%andb_prop. apply negb_true_iff in Hc.
  now rewrite Hc, (IH Hs).
Qed.

Lemma free_of_app_sep (sep : ascii) (stem rest : string) :
  free_of sep (stem ++ String sep rest) = false.
Proof.
  induction stem as [|c stem IH]; simpl.
  - now rewrite Ascii.eqb_refl.
  - rewrite IH. apply andb_false_r.
Qed.

Lemma toLowerCase_app (s t : string) :
  toLowerCase (s ++ t) = toLowerCase s ++ toLowerCase t.
Proof. induction s as [|c s IH]; simpl; [reflexivity | now rewrite IH]. Qed.

(** A name with a dot in it is none of the alternatives. *)
Lemma dotted_not_alternative (stem rest : string) :
  existsb (fun alt => String.eqb alt (toLowerCase (stem ++ String "." rest)))
          image_extensions = false.
Proof.
  destruct (existsb _ image_extensions) eqn:E; [|reflexivity].
  apply existsb_exists in E as (alt & Hin & Heq).
  apply String.eqb_eq in Heq. subst alt.
  assert (Hfree : free_of "." (stem ++ String "." rest) = true).
  { apply image_extension_free_of_dot. exact Hin. }
  now rewrite free_of_app_sep in Hfree.
Qed.

Lemma image_extension_test_last (stem ext : string) :
  free_of "." ext = true ->
  image_extension_test (stem ++ String "." ext)
  = existsb (fun alt => String.eqb alt (toLowerCase ext)) image_extensions.
Proof.
  intros Hfree. induction stem as [|c stem IH].
  - change ("" ++ String "." ext) with (String "." ext).
    rewrite image_extension_test_cons, Ascii.eqb_refl.
    rewrite (image_extension_test_free ext Hfree).
    now rewrite orb_false_r.
  - change (String c stem ++ String "." ext)
      with (String c (stem ++ String "." ext)).
    rewrite image_extension_test_cons, dotted_not_alternative, IH.
    now rewrite andb_false_r.
Qed.

(** X5. For an upload declared as the generic binary type only what
    follows the last dot of the filename counts: the file passes the filter
    exactly when that last segment is a known image extension, whatever
    extensions come before it; a name without any dot never passes. *)
Theorem binary_upload_judged_by_last_extension (file : File)
        (stem ext : string) :
  mimetype file = "application/octet-stream" ->
  free_of "." ext = true ->
  (originalname file = stem ++ "." ++ ext ->
   (fileFilter file = inr true <-> In (toLowerCase ext) image_extensions))
  /\ (originalname file = ext -> fileFilter file <> inr true).
Proof.
  intros Hm Hfree.
  assert (Hmime : isImageMime file = false).
  { unfold isImageMime. now rewrite Hm. }
  unfold fileFilter, isFlutterImage. rewrite Hmime, Hm. split.
  - intros Hn. rewrite Hn.
    change (stem ++ "." ++ ext) with (stem ++ String "." ext).
    rewrite (image_extension_test_last stem ext Hfree).
    replace (truthy (stem ++ String "." ext)) with true
      by (destruct stem; reflexivity).
    remember (existsb (fun alt => String.eqb alt (toLowerCase ext))
                      image_extensions) as known eqn:E.
    symmetry in E. rewrite String.eqb_refl.
    destruct known; simpl.
    + split; [|reflexivity]. intros _.
      apply existsb_exists in E as (alt & Hin & Heq).
      apply String.eqb_eq in Heq. now subst alt.
    + split; [discriminate|]. intros Hin. exfalso.
      assert (E' : existsb (fun alt => String.eqb alt (toLowerCase ext))
                           image_extensions = true).
      { apply existsb_exists. exists (toLowerCase ext).
        split; [exact Hin | apply String.eqb_refl]. }
      congruence.
  - intros Hn. rewrite Hn, (image_extension_test_free ext Hfree).
    rewrite andb_false_r. discriminate.
Qed.

Lemma binary_upload_judged_by_last_extension_witness :
  mimetype double_extension = "application/octet-stream"
  /\ free_of "." "exe" = true
  /\ originalname double_extension = "photo.png" ++ "." ++ "exe"
  /\ fileFilter double_extension <> inr true.
Proof.
  assert (Hm : mimetype double_extension = "application/octet-stream")
    by reflexivity.
  assert (Hfree : free_of "." "exe" = true) by reflexivity.
  assert (Hn : originalname double_extension = "photo.png" ++ "." ++ "exe")
    by reflexivity.
  split; [exact Hm|]. split; [exact Hfree|]. split; [exact Hn|].
  intros Hok.
  apply (proj1 (binary_upload_judged_by_last_extension double_extension
                  "photo.png" "exe" Hm Hfree) Hn) in Hok.
  simpl in Hok.
  repeat (destruct Hok as [Hok | Hok]; [discriminate|]).
  exact Hok.
Defined.

(** X6. The error middleware answers every error with [success: false]:
    with status 400 and the too-large text exactly for a multer error
    whose code is LIMIT_FILE_SIZE, and with status 500 otherwise, carrying
    the error's own message, or the internal-error text when that message
    is empty. *)
Theorem error_middleware_answers (error : Failure) :
  field "success" (body (error_middleware error)) = Some (JBool false)
  /\ ((exists msg, error = MulterError "LIMIT_FILE_SIZE" msg)
      -> error_middleware error
         = {| status := 400;
              body := JObj [("success", JBool false);
                            ("error", JStr "Файл слишком большой. Максимальный размер: 10MB")] |})
  /\ (~ (exists msg, error = MulterError "LIMIT_FILE_SIZE" msg)
      -> status (error_middleware error) = 500%Z
         /\ (message_of error <> "" ->
             field "error" (body (error_middleware error))
             = Some (JStr (message_of error)))
         /\ (message_of error = "" ->
             field "error" (body (error_middleware error))
             = Some (JStr "Внутренняя ошибка сервера"))).
Proof.
  split; [apply error_middleware_status|]. split.
  - intros [msg ->]. reflexivity.
  - intros Hnot.
    assert (Hgen : error_middleware error
                   = status_json 500
                       (failure_body (or_else (Some (message_of error))
                                              "Внутренняя ошибка сервера"))).
    { destruct error as [code msg | msg]; [|reflexivity].
      unfold error_middleware.
      destruct (String.eqb code "LIMIT_FILE_SIZE") eqn:E; [|reflexivity].
      apply String.eqb_eq in E. subst code. exfalso. apply Hnot. now exists msg. }
    rewrite Hgen. split; [reflexivity|]. simpl.
    destruct (message_of error); split; intros H;
      first [reflexivity | congruence].
Qed.

(** *** Placeholder replies *)

Lemma mock_reply_mod (n n' : N) :
  (n mod 3 = n' mod 3)%N -> mock_reply n = mock_reply n'.
Proof.
  unfold mock_reply.
  change (N.of_nat (List.length mockPlants)) with 3%N.
  now intros ->.
Qed.

Lemma mockPlants_distinct (i j : N) (record : Json) :
  (i < 3)%N -> (j < 3)%N ->
  index mockPlants i = Some record -> index mockPlants j = Some record ->
  i = j.
Proof.
  intros Hi Hj.
  destruct i as [|[[]|[]|]]; try (exfalso; lia);
    destruct j as [|[[]|[]|]]; try (exfalso; lia);
    unfold index; simpl; intros [= <-] H; try reflexivity; discriminate H.
Qed.

(** X7. Two requests answered from the fallback get the same reply
    exactly when their uploads' byte lengths leave the same remainder
    modulo 3: the three placeholder records are pairwise different, so
    lengths in different residue classes are told apart. *)
Theorem fallback_replies_equal_iff_congruent {engine : Engine}
        (key key' : option string) (file file' : File) (up up' : Upstream)
        (call call' : Request) :
  In call (calls (post_identify key (Some file) up)) ->
  Unusable (up call) ->
  In call' (calls (post_identify key' (Some file') up')) ->
  Unusable (up' call') ->
  (reply (post_identify key (Some file) up)
   = reply (post_identify key' (Some file') up')
   <-> (size file mod 3 = size file' mod 3)%N).
Proof.
  intros Hin Hu Hin' Hu'.
  rewrite (fallback_reply _ _ _ _ Hin Hu), (fallback_reply _ _ _ _ Hin' Hu').
  split.
  - intros H.
    destruct (mock_reply_record (size file)) as (r & Hr & Hm).
    destruct (mock_reply_record (size file')) as (r' & Hr' & Hm').
    rewrite Hm, Hm' in H.
    assert (Hrr : r = r') by congruence. subst r'.
    apply (mockPlants_distinct _ _ r); try assumption;
      apply N.mod_upper_bound; discriminate.
  - intros H. now rewrite (mock_reply_mod _ _ H).
Qed.

Lemma fallback_replies_equal_iff_congruent_witness :
  (reply (post_identify (Some "secret") (Some leaf) down)
   = reply (post_identify (Some "secret") (Some leaf_twin) down)
   <-> (size leaf mod 3 = size leaf_twin mod 3)%N)
  /\ (reply (post_identify (Some "secret") (Some leaf) down)
      = reply (post_identify (Some "secret") (Some leaf_next) down)
      <-> (size leaf mod 3 = size leaf_next mod 3)%N).
Proof.
  assert (Hin : In leaf_call
                   (calls (post_identify (Some "secret") (Some leaf) down)))
    by (left; reflexivity).
  assert (Hin' : In twin_call
                    (calls (post_identify (Some "secret") (Some leaf_twin)
                                          down)))
    by (left; reflexivity).
  assert (Hin'' : In next_call
                     (calls (post_identify (Some "secret") (Some leaf_next)
                                           down)))
    by (left; reflexivity).
  split.
  - exact (fallback_replies_equal_iff_congruent
             (Some "secret") (Some "secret") leaf leaf_twin down down
             leaf_call twin_call Hin unusable_timeout Hin' unusable_timeout).
  - exact (fallback_replies_equal_iff_congruent
             (Some "secret") (Some "secret") leaf leaf_next down down
             leaf_call next_call Hin unusable_timeout Hin'' unusable_timeout).
Defined.

Lemma mock_reply_has_note (fileSize : N) :
  field "note" (body (mock_reply fileSize)) <> None.
Proof.
  destruct (mock_reply_record fileSize) as (record & _ & ->). discriminate.
Qed.

(** Whatever is not unusable is a 2xx reply whose body has ranked
    matches. *)
Lemma usable_event (ev : Event) :
  ~ Unusable ev ->
  exists code data,
    ev = Replied code data /\ (200 <= code < 300)%Z /\ ~ NoRankedMatch data.
Proof.
  intros Hnot. destruct ev as [| | code data].
  - exfalso. apply Hnot. constructor.
  - exfalso. apply Hnot. constructor.
  - exists code, data. split; [reflexivity|]. split.
    + destruct (Z_lt_ge_dec code 200) as [Hlo | Hlo];
        [exfalso; apply Hnot; apply unusable_status; lia|].
      destruct (Z_lt_ge_dec code 300) as [Hhi | Hhi]; [lia|].
      exfalso. apply Hnot. apply unusable_status. lia.
    + intros Hno. apply Hnot. now apply unusable_empty.
Qed.

(** X8. Among the replies to requests that reached the upstream, the
    [note] member marks the placeholder: a reply has a note exactly when
    it is the placeholder reply for the upload's size.  An unusable call
    always gets that reply, and a reply without a note means that the
    upstream answered 2xx with a body that has ranked matches. *)
Theorem note_marks_placeholder {engine : Engine} (key : option string)
        (file : File) (up : Upstream) (call : Request) :
  In call (calls (post_identify key (Some file) up)) ->
  exists r,
    reply (post_identify key (Some file) up) = Some r
    /\ (field "note" (body r) <> None <-> r = mock_reply (size file))
    /\ (Unusable (up call) -> r = mock_reply (size file))
    /\ (field "note" (body r) = None ->
        exists code data,
          up call = Replied code data /\ (200 <= code < 300)%Z
          /\ ~ NoRankedMatch data).
Proof.
  intros Hin.
  destruct (post_identify_called _ _ _ _ Hin)
    as (file' & k & ct & [= <-] & _ & _ & _ & _ & ->).
  unfold reply. cbn [snd].
  eexists. split; [reflexivity|].
  assert (Hmarks : field "note"
                     (body (settled_reply (mock_reply (size file))
                                          (settle (up call)))) <> None
                   <-> settled_reply (mock_reply (size file)) (settle (up call))
                       = mock_reply (size file)).
  { destruct (settled_reply_cases (mock_reply (size file)) (settle (up call)))
      as [Hs | (result & info & _ & Hs)]; rewrite Hs.
    - split; [reflexivity | intros _; apply mock_reply_has_note].
    - split; [intros H; now contradiction H|].
      intros H. exfalso. apply (mock_reply_has_note (size file)).
      now rewrite <- H. }
  split; [exact Hmarks|]. split.
  - intros Hu. exact (unusable_settle _ _ Hu).
  - intros Hnone. apply usable_event. intros Hu.
    apply (proj2 Hmarks (unusable_settle _ _ Hu)). exact Hnone.
Qed.

Lemma note_marks_placeholder_witness :
  In leaf_call (calls (post_identify (Some "secret") (Some leaf) down))
  /\ exists r,
      reply (post_identify (Some "secret") (Some leaf) down) = Some r
      /\ field "note" (body r) <> None.
Proof.
  assert (Hin : In leaf_call
                   (calls (post_identify (Some "secret") (Some leaf) down)))
    by (left; reflexivity).
  split; [exact Hin|].
  destruct (note_marks_placeholder (Some "secret") leaf down leaf_call Hin)
    as (r & Hr & Hnote & Hu & _).
  exists r. split; [exact Hr|]. apply Hnote. apply Hu. constructor.
Defined.

(** *** The diagnostic endpoints *)

Lemma configured_api_key (key : option string) :
  Diagnostics.configured key = true <-> exists k, api_key key = Some k.
Proof.
  unfold Diagnostics.configured, api_key.
  destruct key as [[|c s]|]; simpl; split;
    try discriminate; try (intros [k H]; discriminate); eauto.
Qed.

(** X9. GET /health answers 200 and its [hasApiKey] tells what POST
    /identify will do with an upload the acceptor hands on: [true] exactly
    when the upstream is contacted for it, [false] exactly when it is
    answered with the missing-credential 500. *)
Theorem health_predicts_identify {engine : Engine} (key : option string) (timestamp : string)
        (part : option File) (file : File) (up : Upstream) :
  single part = Continue (Some file) ->
  status (Diagnostics.health key timestamp) = 200%Z
  /\ (field "hasApiKey" (body (Diagnostics.health key timestamp))
      = Some (JBool true)
      <-> calls (post_identify key part up) <> [])
  /\ (field "hasApiKey" (body (Diagnostics.health key timestamp))
      = Some (JBool false)
      <-> reply (post_identify key part up) = Some missing_credential_reply).
Proof.
  intros Hs. split; [reflexivity|].
  unfold Diagnostics.health. simpl.
  unfold post_identify. rewrite Hs.
  destruct (api_key key) as [k|] eqn:Hk.
  - assert (Hc : Diagnostics.configured key = true)
      by (apply configured_api_key; eauto).
    destruct (identify_handler_run key k file up Hk) as (ct & _ & Hrun).
    rewrite Hc, Hrun. unfold reply, calls. cbn [fst snd]. split.
    + split; [discriminate | reflexivity].
    + split; [discriminate|].
      intros H.
      pose proof (answered_status (size file) (settle (up (outbound k file ct))))
        as Hst.
      assert (Heq : settled_reply (mock_reply (size file))
                      (settle (up (outbound k file ct)))
                    = missing_credential_reply) by congruence.
      rewrite Heq in Hst. discriminate.
  - assert (Hc : Diagnostics.configured key = false).
    { destruct (Diagnostics.configured key) eqn:E; [|reflexivity].
      apply configured_api_key in E as [k E]. congruence. }
    rewrite Hc.
    unfold identify_handler, try_catch, identify_try. rewrite Hk.
    unfold reply, calls. simpl. split.
    + split; [discriminate | congruence].
    + split; reflexivity.
Qed.

Lemma health_predicts_identify_witness :
  single (Some leaf) = Continue (Some leaf)
  /\ status (Diagnostics.health None "2024-05-01T10:00:00.000Z") = 200%Z
  /\ field "hasApiKey" (body (Diagnostics.health None "2024-05-01T10:00:00.000Z"))
     = Some (JBool false)
  /\ reply (post_identify None (Some leaf) down) = Some missing_credential_reply.
Proof.
  assert (Hs : single (Some leaf) = Continue (Some leaf)) by reflexivity.
  split; [exact Hs|].
  destruct (health_predicts_identify None "2024-05-01T10:00:00.000Z"
              (Some leaf) leaf down Hs) as (Hst & _ & Hfalse).
  split; [exact Hst|]. split; [reflexivity|].
  apply Hfalse. reflexivity.
Defined.

Lemma substring_whole (n : nat) (s : string) :
  String.length s <= n -> substring 0 n s = s.
Proof.
  revert s. induction n as [|n IH]; intros [|c s]; simpl; intros H;
    try reflexivity; [lia|].
  f_equal. apply IH. lia.
Qed.

Lemma substring_split (n : nat) (s : string) :
  exists hidden,
    s = substring 0 n s ++ hidden
    /\ String.length (substring 0 n s) = Nat.min n (String.length s).
Proof.
  revert s. induction n as [|n IH]; intros [|c s]; simpl.
  - now exists "".
  - now exists (String c s).
  - now exists "".
  - destruct (IH s) as (hidden & Heq & Hlen).
    exists hidden. split; [now f_equal | now rewrite Hlen].
Qed.

(** X10. GET /test-api without a credential (unset or empty) reports
    no key, length 0 and the no-key text.  With a credential it reports
    the key's length and shows its first eight characters followed by three
    dots: a key of at most eight characters is disclosed in full. *)
Theorem test_api_discloses_prefix (key : option string) :
  (CredentialAbsent key ->
   Diagnostics.test_api key
   = {| Diagnostics.hasApiKey := false;
        Diagnostics.apiKeyLength := 0;
        Diagnostics.apiKeyPrefix := "Нет ключа" |})
  /\ (forall k, key = Some k -> k <> "" ->
        Diagnostics.hasApiKey (Diagnostics.test_api key) = true
        /\ Diagnostics.apiKeyLength (Diagnostics.test_api key)
           = String.length k
        /\ (exists shown hidden,
              k = shown ++ hidden
              /\ String.length shown = Nat.min 8 (String.length k)
              /\ Diagnostics.apiKeyPrefix (Diagnostics.test_api key)
                 = shown ++ "...")
        /\ (String.length k <= 8 ->
            Diagnostics.apiKeyPrefix (Diagnostics.test_api key) = k ++ "...")).
Proof.
  split.
  - intros [-> | ->]; reflexivity.
  - intros k -> Hk.
    unfold Diagnostics.test_api, Diagnostics.configured.
    destruct k as [|c k]; [congruence|].
    cbn [truthy Diagnostics.hasApiKey Diagnostics.apiKeyLength
         Diagnostics.apiKeyPrefix].
    split; [reflexivity|]. split; [reflexivity|]. split.
    + destruct (substring_split 8 (String c k)) as (hidden & Heq & Hlen).
      exists (substring 0 8 (String c k)), hidden. now repeat split.
    + intros Hlen. now rewrite (substring_whole 8 _ Hlen).
Qed.

(** X11. GET /test-plantnet sends one probe to the projects URL with a
    10 s timeout whether or not a credential is configured (without one
    the bearer token is the word undefined).  A 2xx answer is passed on as
    200 with the upstream status and data; any other outcome is reported
    as 500 with the error message, and with the upstream status, status
    text and data when there was a response. *)
Theorem test_plantnet_reports_upstream (key : option string)
        (up : Diagnostics.Probe -> Diagnostics.ProbeEvent) :
  exists probe,
    fst (Diagnostics.test_plantnet key up) = [probe]
    /\ Diagnostics.probe_target probe
       = "https://my-api.plantnet.org/v2/projects"
    /\ Diagnostics.probe_timeout probe = 10000%Z
    /\ (key = None ->
        Diagnostics.probe_authorization probe = "Bearer undefined")
    /\ (forall k, key = Some k ->
                  Diagnostics.probe_authorization probe = "Bearer " ++ k)
    /\ (forall code text data,
          up probe = Diagnostics.Answered code text data ->
          (200 <= code < 300)%Z ->
          snd (Diagnostics.test_plantnet key up)
          = Diagnostics.mkProbeReply 200
              (Diagnostics.ProbeOk "PlantNet API доступен" code data))
    /\ (forall code text data,
          up probe = Diagnostics.Answered code text data ->
          (code < 200 \/ 300 <= code)%Z ->
          exists message,
            snd (Diagnostics.test_plantnet key up)
            = Diagnostics.mkProbeReply 500
                (Diagnostics.ProbeFailed message
                   (Some (Diagnostics.mkErrorResponse code text data))))
    /\ (forall message,
          up probe = Diagnostics.Unanswered message ->
          snd (Diagnostics.test_plantnet key up)
          = Diagnostics.mkProbeReply 500
              (Diagnostics.ProbeFailed message None)).
Proof.
  exists (Diagnostics.projects_probe key).
  split; [reflexivity|]. split; [reflexivity|]. split; [reflexivity|].
  split; [now intros ->|]. split; [now intros k ->|].
  unfold Diagnostics.test_plantnet. cbn [snd]. split; [|split].
  - intros code text data -> Hcode. unfold Diagnostics.get, validateStatus.
    replace (200 <=? code)%Z with true by (symmetry; apply Z.leb_le; lia).
    replace (code <? 300)%Z with true by (symmetry; apply Z.ltb_lt; lia).
    reflexivity.
  - intros code text data -> Hcode. unfold Diagnostics.get.
    replace (validateStatus code) with false.
    + eexists. reflexivity.
    + symmetry. unfold validateStatus. apply andb_false_iff.
      destruct Hcode; [left; apply Z.leb_gt | right; apply Z.ltb_ge]; lia.
  - now intros message ->.
Qed.

(** *** The single-placeholder revision *)

Lemma earlier_filter_image (file : File) :
  Earlier.fileFilter file = inr true
  <-> startsWith (mimetype file) "image/" = true.
Proof.
  unfold Earlier.fileFilter, startsWith.
  destruct (prefix "image/" (mimetype file)) eqn:P.
  - destruct (mimetype file); [discriminate P|].
    split; reflexivity.
  - rewrite andb_false_r. split; discriminate.
Qed.

Lemma earlier_handler_run {engine : Engine} (key : option string)
      (k : string) (file : File) (up : Upstream) :
  api_key key = Some k ->
  Earlier.identify_handler key (Some file) up
  = ([Earlier.outbound k file],
     inr (settled_reply Earlier.mock_reply
                        (settle (up (Earlier.outbound k file))))).
Proof.
  intros Hk.
  unfold Earlier.identify_handler, try_catch, Earlier.identify_try,
    bind, post, lift.
  rewrite Hk. unfold settled_reply.
  destruct (settle (up (Earlier.outbound k file))) as [e | resp];
    [reflexivity|].
  destruct (has_results (response_data resp)) as [e | []];
    [reflexivity | | reflexivity].
  destruct (identified (response_data resp)) as [e | r]; reflexivity.
Qed.

Lemma earlier_called {engine : Engine} (key : option string) (file : File) (up : Upstream)
      (call : Request) :
  In call (calls (Earlier.post_identify key (Some file) up)) ->
  exists k,
    api_key key = Some k
    /\ call = Earlier.outbound k file
    /\ Earlier.post_identify key (Some file) up
       = Earlier.identify_handler key (Some file) up.
Proof.
  unfold Earlier.post_identify, Earlier.upload_single.
  destruct (negb (truthy (originalname file))); [simpl; contradiction|].
  destruct (Earlier.fileFilter file) as [e | []];
    [simpl; contradiction | | simpl; contradiction].
  destruct (fileSize <=? size file)%N; [simpl; contradiction|].
  destruct (api_key key) as [k|] eqn:Hk.
  - rewrite (earlier_handler_run key k file up Hk). simpl.
    intros [<- | []]. now exists k.
  - unfold Earlier.identify_handler, try_catch, Earlier.identify_try.
    rewrite Hk. simpl. contradiction.
Qed.

(** X12. In the single-placeholder revision every request that reached
    the upstream and found it unusable gets one and the same reply, status
    200 with [success: true], the fixed record and a note, whatever the
    size of the upload. *)
Theorem earlier_fallback_is_fixed {engine : Engine} (key : option string) (file : File)
        (up : Upstream) (call : Request) :
  In call (calls (Earlier.post_identify key (Some file) up)) ->
  Unusable (up call) ->
  reply (Earlier.post_identify key (Some file) up)
  = Some {| status := 200;
            body := JObj [("success", JBool true);
                          ("result", Earlier.mockPlantInfo);
                          ("note", JStr "Демонстрациялық деректер (PlantNet API қол жетімді емес)")] |}
  /\ forall key' file' up' call',
      In call' (calls (Earlier.post_identify key' (Some file') up')) ->
      Unusable (up' call') ->
      reply (Earlier.post_identify key' (Some file') up')
      = reply (Earlier.post_identify key (Some file) up).
Proof.
  assert (Hfix : forall key file up call,
             In call (calls (Earlier.post_identify key (Some file) up)) ->
             Unusable (up call) ->
             reply (Earlier.post_identify key (Some file) up)
             = Some Earlier.mock_reply).
  { clear. intros key file up call Hin Hu.
    destruct (earlier_called _ _ _ _ Hin) as (k & Hk & -> & ->).
    rewrite (earlier_handler_run key k file up Hk).
    unfold reply. cbn [snd]. now rewrite (unusable_settle _ _ Hu). }
  intros Hin Hu. split.
  - exact (Hfix _ _ _ _ Hin Hu).
  - intros key' file' up' call' Hin' Hu'.
    now rewrite (Hfix _ _ _ _ Hin Hu), (Hfix _ _ _ _ Hin' Hu').
Qed.

Lemma earlier_fallback_is_fixed_witness :
  In (Earlier.outbound "secret" leaf)
     (calls (Earlier.post_identify (Some "secret") (Some leaf) down))
  /\ Unusable (down (Earlier.outbound "secret" leaf))
  /\ reply (Earlier.post_identify (Some "secret") (Some leaf_next) down)
     = reply (Earlier.post_identify (Some "secret") (Some leaf) down).
Proof.
  assert (Hin : In (Earlier.outbound "secret" leaf)
                   (calls (Earlier.post_identify (Some "secret") (Some leaf)
                                                 down)))
    by (left; reflexivity).
  assert (Hin' : In (Earlier.outbound "secret" leaf_next)
                    (calls (Earlier.post_identify (Some "secret")
                                                  (Some leaf_next) down)))
    by (left; reflexivity).
  split; [exact Hin|]. split; [constructor|].
  exact (proj2 (earlier_fallback_is_fixed (Some "secret") leaf down
                  (Earlier.outbound "secret" leaf) Hin unusable_timeout)
           (Some "secret") leaf_next down
           (Earlier.outbound "secret" leaf_next) Hin' unusable_timeout).
Defined.

(** X13. The Flutter accommodation only widens the filter.  The earlier
    filter passes exactly the uploads declared with an image media type;
    the later one passes all of those, and the uploads only it passes are
    exactly the generic-binary ones whose filename ends in an image
    extension.  Such an upload, when it carries a filename, is turned away
    by the earlier revision with status 500 and no upstream call. *)
Theorem flutter_accommodation_widens_filter {engine : Engine} (file : File) :
  (Earlier.fileFilter file = inr true
   <-> startsWith (mimetype file) "image/" = true)
  /\ (Earlier.fileFilter file = inr true -> fileFilter file = inr true)
  /\ (fileFilter file = inr true /\ Earlier.fileFilter file <> inr true
      <-> mimetype file = "application/octet-stream"
          /\ EndsInImageExtension (originalname file))
  /\ (mimetype file = "application/octet-stream" ->
      originalname file <> "" ->
      forall key up,
        reply (Earlier.post_identify key (Some file) up)
        = Some {| status := 500;
                  body := JObj [("success", JBool false);
                                ("error", JStr "Только изображения разрешены")] |}
        /\ calls (Earlier.post_identify key (Some file) up) = []).
Proof.
  split; [apply earlier_filter_image|]. split; [|split].
  - intros H. apply fileFilter_allowed. left. now apply earlier_filter_image.
  - split.
    + intros [Hok Hno]. apply fileFilter_allowed in Hok.
      destruct Hok as [Hp | Hb]; [|exact Hb].
      exfalso. apply Hno. now apply earlier_filter_image.
    + intros [Hb Hx]. split.
      * apply fileFilter_allowed. right. now split.
      * intros H. apply earlier_filter_image in H.
        rewrite Hb in H. discriminate.
  - intros Hb Hname key up.
    unfold Earlier.post_identify, Earlier.upload_single, Earlier.fileFilter.
    rewrite Hb.
    destruct (originalname file); [congruence|]. simpl.
    split; reflexivity.
Qed.

(** The two revisions answer a settled call alike, except that each has
    its own placeholder. *)
Lemma settled_reply_two_mocks {engine : Engine} (mock mock' : Response)
      (outcome : AxiosError + AxiosResponse) :
  (settled_reply mock outcome = mock /\ settled_reply mock' outcome = mock')
  \/ (settled_reply mock outcome = settled_reply mock' outcome
      /\ exists info,
          settled_reply mock outcome
          = json (JObj [("success", JBool true); ("result", info)])).
Proof.
  unfold settled_reply.
  destruct outcome as [e | response]; [now left|].
  destruct (has_results (response_data response)) as [e | []];
    [now left | | now left].
  destruct (identified (response_data response)) as [e | r] eqn:Hid;
    [now left|].
  right. split; [reflexivity|].
  unfold identified in Hid.
  destruct (member "results" (response_data response)) as [e | results];
    [discriminate|].
  cbn [and_then] in Hid.
  destruct (Dynamic.first results) as [e | result]; [discriminate|].
  cbn [and_then] in Hid.
  destruct (plantInfo result) as [e | info]; [discriminate|].
  injection Hid as <-. now exists info.
Qed.

(** X14. For an upload declared with an image media type the two
    revisions treat the request alike: against the same upstream outcome
    they answer with the same status and make the same number of calls, and
    their replies are equal unless each serves its own placeholder; in
    particular, whenever the later revision's reply has no note the earlier
    revision gives the very same reply. *)
Theorem revisions_agree_on_image_uploads {engine : Engine}
        (key : option string) (file : File) (ev : Event) :
  startsWith (mimetype file) "image/" = true ->
  option_map status (reply (Earlier.post_identify key (Some file) (fun _ => ev)))
  = option_map status (reply (post_identify key (Some file) (fun _ => ev)))
  /\ List.length (calls (Earlier.post_identify key (Some file) (fun _ => ev)))
     = List.length (calls (post_identify key (Some file) (fun _ => ev)))
  /\ (reply (Earlier.post_identify key (Some file) (fun _ => ev))
      = reply (post_identify key (Some file) (fun _ => ev))
      \/ (reply (post_identify key (Some file) (fun _ => ev))
          = Some (mock_reply (size file))
          /\ reply (Earlier.post_identify key (Some file) (fun _ => ev))
             = Some Earlier.mock_reply))
  /\ (forall r,
        reply (post_identify key (Some file) (fun _ => ev)) = Some r ->
        field "note" (body r) = None ->
        reply (Earlier.post_identify key (Some file) (fun _ => ev)) = Some r).
Proof.
  intros Hp.
  assert (He : Earlier.fileFilter file = inr true)
    by now apply earlier_filter_image.
  assert (Hl : fileFilter file = inr true)
    by (apply fileFilter_allowed; now left).
  unfold Earlier.post_identify, Earlier.upload_single, post_identify, single.
  rewrite He, Hl.
  destruct (negb (truthy (originalname file)));
    [repeat split; try (now left); intros r H _; exact H|].
  destruct (fileSize <=? size file)%N;
    [repeat split; try (now left); intros r H _; exact H|].
  destruct (api_key key) as [k|] eqn:Hk.
  - rewrite (earlier_handler_run key k file _ Hk).
    destruct (identify_handler_run key k file (fun _ => ev) Hk)
      as (ct & _ & ->).
    unfold reply, calls. cbn [fst snd List.length].
    destruct (settled_reply_two_mocks (mock_reply (size file))
                Earlier.mock_reply (settle ev))
      as [[Hl' He'] | [Heq (info & Hinfo)]].
    + rewrite Hl', He'.
      destruct (mock_reply_record (size file)) as (record & _ & Hm).
      split; [now rewrite Hm|]. split; [reflexivity|].
      split; [now right|].
      intros r [= <-] Hnone. exfalso.
      exact (mock_reply_has_note (size file) Hnone).
    + rewrite <- Heq. split; [reflexivity|]. split; [reflexivity|].
      split; [now left | now intros r ->].
  - unfold Earlier.identify_handler, Earlier.identify_try,
      identify_handler, identify_try, try_catch.
    rewrite Hk. repeat split; try (now left); intros r H _; exact H.
Qed.

Lemma revisions_agree_on_image_uploads_witness :
  startsWith (mimetype leaf) "image/" = true
  /\ reply (Earlier.post_identify (Some "secret") (Some leaf)
                                  (answers [dog_rose]))
     = reply (post_identify (Some "secret") (Some leaf) (answers [dog_rose])).
Proof.
  assert (Hp : startsWith (mimetype leaf) "image/" = true) by reflexivity.
  split; [exact Hp|].
  destruct (revisions_agree_on_image_uploads (Some "secret") leaf
              (Replied 200 (Some (JObj [("results", JArr [dog_rose])]))) Hp)
    as (_ & _ & _ & Hsame).
  exact (Hsame _ eq_refl eq_refl).
Defined.
